(** * wayback_archiver.py: a shallow embedding and its properties

    The program reads a JSON file of rows [original_url, timestamp, ...],
    builds one Wayback Machine URL per row, and downloads each page with a
    fixed pause between requests.  This file embeds [download_page] and
    [main] and proves the properties stated about them.

    Conventions of the embedding:
    - a Python [str] is the list of its code points ([pystr]);
    - the library functions the program calls ([str.split], [unquote],
      [urlparse], [os.path.join], ...) are transcribed from CPython 3.11
      ([urllib/parse.py], [posixpath.py]); the three places where they
      depend on Unicode tables or on the [ipaddress] module are the fields
      of [pylib], about which nothing is assumed;
    - network, disk and clock are outside the program: the record
      [environ] says how each call answers, the record [world] holds the
      disk and the sequence of calls made so far. *)

From Stdlib Require Import ZArith NArith List Bool Ascii String Lia SpecFloat.
From stdpp Require Import base option list gmap.
Import ListNotations.

Local Open Scope Z_scope.
Local Open Scope N_scope.
Local Open Scope nat_scope.

(** ** Python strings *)

Module PyStr.

(** A [str] is a sequence of Unicode code points. *)
Definition pystr : Type := list N.

(** Code point of an ASCII character, and [str] literals. *)
Definition chr (a : ascii) : N := N_of_ascii a.

Definition lit (s : string) : pystr := List.map chr (list_ascii_of_string s).

(** [c in chars], for a one-character [c]. *)
Definition mem (c : N) (chars : pystr) : bool := existsb (N.eqb c) chars.

(** [s.split(sep)] for a one-character separator: never the empty list,
    [''.split('/') == ['']]. *)
Fixpoint split (sep : N) (s : pystr) : list pystr :=
  match s with
  | [] => [[]]
  | c :: r =>
      if N.eqb c sep then [] :: split sep r
      else match split sep r with
           | h :: t => (c :: h) :: t
           | [] => [[c]]
           end
  end.

(** [s.replace(a, b)] for one-character [a] and [b]. *)
Definition replace (a b : N) (s : pystr) : pystr :=
  List.map (fun c => if N.eqb c a then b else c) s.

(** [s.replace(a, "")] for a one-character [a]. *)
Definition remove (a : N) (s : pystr) : pystr :=
  List.filter (fun c => negb (N.eqb c a)) s.

(** [s.lstrip(chars)], [s.rstrip(chars)], [s.strip(chars)]. *)
Fixpoint lstrip (chars : pystr) (s : pystr) : pystr :=
  match s with
  | c :: r => if mem c chars then lstrip chars r else s
  | [] => []
  end.

Definition rstrip (chars : pystr) (s : pystr) : pystr :=
  rev (lstrip chars (rev s)).

Definition strip (chars : pystr) (s : pystr) : pystr :=
  rstrip chars (lstrip chars s).

(** [s.startswith(p)] and [s.endswith(p)]. *)
Fixpoint startswith (p s : pystr) : bool :=
  match p, s with
  | [], _ => true
  | a :: p', b :: s' => N.eqb a b && startswith p' s'
  | _ :: _, [] => false
  end.

Definition endswith (p s : pystr) : bool := startswith (rev p) (rev s).

(** [s.find(c)]: index of the first occurrence, [None] for Python's -1. *)
Fixpoint find (c : N) (s : pystr) : option nat :=
  match s with
  | [] => None
  | x :: r => if N.eqb x c then Some O else option_map S (find c r)
  end.

(** [s.find(c, start)]. *)
Definition find_from (c : N) (start : nat) (s : pystr) : option nat :=
  option_map (fun i => (start + i)%nat) (find c (skipn start s)).

(** [s.rfind(c)]. *)
Fixpoint rfind (c : N) (s : pystr) : option nat :=
  match s with
  | [] => None
  | x :: r =>
      match rfind c r with
      | Some i => Some (S i)
      | None => if N.eqb x c then Some O else None
      end
  end.

(** [s.isascii()]. *)
Definition isascii (s : pystr) : bool := forallb (fun c => N.ltb c 128) s.

(** [c.isascii() and c.isalpha()]: an ASCII letter. *)
Definition is_ascii_alpha (c : N) : bool :=
  (N.leb 65 c && N.leb c 90) || (N.leb 97 c && N.leb c 122).

Definition is_digit (c : N) : bool := N.leb 48 c && N.leb c 57.

(** [s.lower()], on the ASCII text it is applied to ([urlsplit] lowers a
    prefix made of [scheme_chars] only). *)
Definition lower (s : pystr) : pystr :=
  List.map (fun c => if N.leb 65 c && N.leb c 90 then (c + 32)%N else c) s.

(** [s[i:j]] for indices within range. *)
Definition slice (i j : nat) (s : pystr) : pystr := skipn i (firstn j s).

End PyStr.
Import PyStr.

(** ** The parts of CPython's library that need Unicode data *)

Record pylib : Type := {
  (** [bytes.decode('utf-8', 'replace')] *)
  utf8_decode_replace : list N -> pystr;
  (** [_check_bracketed_netloc] returns (it parses an IP literal with
      [ipaddress]) rather than raising [ValueError] *)
  bracketed_netloc_ok : pystr -> bool;
  (** the NFKC comparison at the end of [_checknetloc] finds none of
      [/?#@:] in a netloc that is not ASCII *)
  nfkc_netloc_ok : pystr -> bool
}.

(** ** urllib.parse *)

Module Urllib.

Definition hexval (c : N) : option N :=
  if is_digit c then Some (c - 48)%N
  else if N.leb 65 c && N.leb c 70 then Some (c - 55)%N
  else if N.leb 97 c && N.leb c 102 then Some (c - 87)%N
  else None.

(** One iteration of the loop of [unquote_to_bytes] over [bits[1:]]: the
    two hexadecimal digits after a [%] become one byte, anything else
    keeps its [%]. *)
Definition unquote_item (item : list N) : list N :=
  match item with
  | a :: b :: rest =>
      match hexval a, hexval b with
      | Some x, Some y => (16 * x + y)%N :: rest
      | _, _ => chr "%" :: item
      end
  | _ => chr "%" :: item
  end.

(** [unquote_to_bytes], on the ASCII text [unquote] passes to it. *)
Definition unquote_to_bytes (s : pystr) : list N :=
  match split (chr "%") s with
  | first :: items => first ++ concat (List.map unquote_item items)
  | [] => []
  end.

(** [_asciire.split]: the maximal runs of ASCII and of other characters,
    in order, each with the flag "is ASCII". *)
Fixpoint ascii_runs (s : pystr) : list (bool * pystr) :=
  match s with
  | [] => []
  | c :: r =>
      let a := N.ltb c 128 in
      match ascii_runs r with
      | (b, run) :: t =>
          if Bool.eqb a b then (a, c :: run) :: t
          else (a, [c]) :: (b, run) :: t
      | [] => [(a, [c])]
      end
  end.

(** [unquote(string)] with the default [encoding='utf-8'],
    [errors='replace']. *)
Definition unquote (L : pylib) (s : pystr) : pystr :=
  if mem (chr "%") s then
    concat (List.map (fun '(a, run) =>
                   if a : bool then utf8_decode_replace L (unquote_to_bytes run)
                   else run)
                (ascii_runs s))
  else s.

Definition scheme_chars : pystr :=
  lit "abcdefghijklmnopqrstuvwxyzABCDEFGHIJKLMNOPQRSTUVWXYZ0123456789+-.".

Definition uses_params : list pystr :=
  List.map lit [""%string; "ftp"; "hdl"; "prospero"; "http"; "imap"; "https";
                "shttp"; "rtsp"; "rtspu"; "sip"; "sips"; "mms"; "sftp";
                "tel"]%string.

(** [_WHATWG_C0_CONTROL_OR_SPACE]: the code points 0 to 32. *)
Definition C0_CONTROL_OR_SPACE : pystr := List.map N.of_nat (seq 0 33).

Record SplitResult : Type := {
  sr_scheme : pystr; sr_netloc : pystr; sr_path : pystr;
  sr_query : pystr; sr_fragment : pystr
}.

Record ParseResult : Type := {
  scheme : pystr; netloc : pystr; path : pystr;
  params : pystr; query : pystr; fragment : pystr
}.

(** [_splitnetloc(url, start)]. *)
Definition splitnetloc (url : pystr) (start : nat) : pystr * pystr :=
  let delim :=
    fold_left (fun delim c =>
                 match find_from c start url with
                 | Some wdelim => Nat.min delim wdelim
                 | None => delim
                 end)
              (lit "/?#") (length url) in
  (slice start delim url, skipn delim url).

(** [url.split(c, 1)] when [c in url]. *)
Definition split_once (c : N) (url : pystr) : option (pystr * pystr) :=
  match find c url with
  | Some i => Some (firstn i url, skipn (S i) url)
  | None => None
  end.

(** The scheme test of [urlsplit]: [(scheme, rest)]. *)
Definition split_scheme (url : pystr) : pystr * pystr :=
  match find (chr ":") url with
  | Some (S i) =>
      if is_ascii_alpha (hd 0%N url)
         && forallb (fun c => mem c scheme_chars) (firstn (S i) url)
      then (lower (firstn (S i) url), skipn (S (S i)) url)
      else ([], url)
  | _ => ([], url)
  end.

(** [urlsplit(url)]; [None] when it raises [ValueError]. *)
Definition urlsplit (L : pylib) (url : pystr) : option SplitResult :=
  let url := lstrip C0_CONTROL_OR_SPACE url in
  let url := remove 10 (remove 13 (remove 9 url)) in
  let '(scheme, url) := split_scheme url in
  '(netloc, url) ←
    (if startswith (lit "//") url then
       let '(netloc, url) := splitnetloc url 2 in
       let lb := mem (chr "[") netloc in
       let rb := mem (chr "]") netloc in
       if (lb && negb rb) || (rb && negb lb) then None
       else if lb && rb && negb (bracketed_netloc_ok L netloc) then None
       else Some (netloc, url)
     else Some ([], url));
  let '(url, fragment) :=
    match split_once (chr "#") url with
    | Some p => p
    | None => (url, [])
    end in
  let '(url, query) :=
    match split_once (chr "?") url with
    | Some p => p
    | None => (url, [])
    end in
  if match netloc with [] => true | _ => isascii netloc end
     || nfkc_netloc_ok L netloc
  then Some {| sr_scheme := scheme; sr_netloc := netloc; sr_path := url;
               sr_query := query; sr_fragment := fragment |}
  else None.

(** [_splitparams(url)], called when [';' in url]. *)
Definition splitparams (url : pystr) : pystr * pystr :=
  if mem (chr "/") url then
    match find_from (chr ";") (default O (rfind (chr "/") url)) url with
    | None => (url, [])
    | Some i => (firstn i url, skipn (S i) url)
    end
  else
    match find (chr ";") url with
    | Some i => (firstn i url, skipn (S i) url)
    | None => (removelast url, url)
    end.

(** [urlparse(url)]; [None] when it raises [ValueError]. *)
Definition urlparse (L : pylib) (url : pystr) : option ParseResult :=
  r ← urlsplit L url;
  let '(url, params) :=
    if bool_decide (sr_scheme r ∈ uses_params) && mem (chr ";") (sr_path r)
    then splitparams (sr_path r)
    else (sr_path r, []) in
  Some {| scheme := sr_scheme r; netloc := sr_netloc r; path := url;
          params := params; query := sr_query r;
          fragment := sr_fragment r |}.

End Urllib.

(** ** posixpath *)

(** [os.path.join(a, b)]. *)
Definition os_path_join (a b : pystr) : pystr :=
  if startswith (lit "/") b then b
  else if match a with [] => true | _ => endswith (lit "/") a end then a ++ b
  else a ++ lit "/" ++ b.

(** ** Data of the program *)

(** A row of the input file: a JSON array of strings, the format the
    program reads; other JSON values are not modelled. *)
Definition row : Type := list pystr.

(** The dictionaries appended to [wayback_urls]. *)
Record url_info : Type := {
  original_url : pystr;
  wayback_url : pystr
}.

(** The parsed command line: [--limit] is an optional integer,
    [--delay] a float. *)
Record args : Type := {
  input_file : pystr;
  output : pystr;
  limit : option Z;
  delay : spec_float
}.

Definition header : row := [lit "original"; lit "timestamp"; lit "endkey"].

Definition headers : list (pystr * pystr) :=
  [ (lit "User-Agent",
     lit "Mozilla/5.0 (X11; Linux x86_64; rv:142.0) Gecko/20100101 Firefox/142.0");
    (lit "Accept",
     lit "text/html,application/xhtml+xml,application/xml;q=0.9,*/*;q=0.8");
    (lit "Accept-Language", lit "en-US,en;q=0.5");
    (lit "Upgrade-Insecure-Requests", lit "1");
    (lit "Sec-Fetch-Dest", lit "document");
    (lit "Sec-Fetch-Mode", lit "navigate");
    (lit "Sec-Fetch-Site", lit "same-origin");
    (lit "Priority", lit "u=0, i") ].

(** ** The pure steps of [main] *)

(** Lines 81-85: skip the header row. *)
Definition skip_header (data : list row) : list row :=
  match data with
  | first :: rest => if bool_decide (first = header) then rest else data
  | [] => data
  end.

(** Line 93: the f-string. *)
Definition build_wayback_url (timestamp original : pystr) : pystr :=
  lit "https://web.archive.org/web/" ++ timestamp ++ lit "/" ++ original.

(** Lines 88-97: the loop that appends one dictionary per row that has at
    least two fields. *)
Definition convert_step (wayback_urls : list url_info) (entry : row)
  : list url_info :=
  if (2 <=? length entry)%nat then
    let original := nth 0 entry [] in
    let timestamp := nth 1 entry [] in
    wayback_urls ++ [ {| original_url := original;
                         wayback_url := build_wayback_url timestamp original |} ]
  else wayback_urls.

Definition convert (url_data : list row) : list url_info :=
  fold_left convert_step url_data [].

(** [l[:n]] for a Python integer [n]. *)
Definition slice_upto {A : Type} (n : Z) (l : list A) : list A :=
  if (n <? 0)%Z then firstn (Z.to_nat (Z.of_nat (length l) + n)) l
  else firstn (Z.to_nat n) l.

(** Line 106: [args.limit and args.limit < len(wayback_urls)]; [None] and
    [0] are falsy. *)
Definition limit_applies (limit : option Z) (wayback_urls : list url_info)
  : bool :=
  match limit with
  | Some n => negb (n =? 0)%Z && (n <? Z.of_nat (length wayback_urls))%Z
  | None => false
  end.

(** Lines 105-107. *)
Definition apply_limit (limit : option Z) (wayback_urls : list url_info)
  : list url_info :=
  if limit_applies limit wayback_urls
  then slice_upto (default 0%Z limit) wayback_urls
  else wayback_urls.

(** Line 118, from the path of the parsed original URL. *)
Definition path_dir_of (output path : pystr) : pystr :=
  os_path_join output (replace (chr "/") (chr "_") (lstrip (lit "/") path)).

(** ** The pure steps of [download_page] *)

(** Lines 27-32, from the path of the parsed URL. *)
Definition filename_of (path : pystr) : pystr :=
  let path := if endswith (lit "/") path then path ++ lit "index" else path in
  strip (lit "_") (replace (chr "/") (chr "_") path).

(** Line 35. *)
Definition html_file_of (output_dir filename : pystr) : pystr :=
  os_path_join output_dir (filename ++ lit ".html").

(** ** The outside world *)

(** What [requests.get] raises: every class below derives from
    [requests.RequestException]. *)
Inductive request_error : Type :=
| ConnectionError
| RequestTimeout  (* requests.Timeout *)
| TooManyRedirects.

(** The exceptions of the program, all subclasses of [Exception]. *)
Inductive exn : Type :=
| IndexError
| ValueError
| OSError
| JSONDecodeError
| RequestException (e : request_error)
| HTTPError (status_code : Z).

Record response : Type := {
  status_code : Z;
  text : pystr
}.

Inductive get_result : Type :=
| GetRaises (e : request_error)
| GetReturns (r : response).

Inductive level : Type := INFO | ERROR.

(** One constructor per logging call of the source. *)
Inductive message : Type :=
| Downloading (wayback_url : pystr)
| ErrorDownloading (wayback_url : pystr) (e : exn)
| ErrorReadingInput (e : exn)
| NoValidUrls
| FoundUrls (n : nat)
| LimitedTo (n : Z)
| DownloadingTo (output : pystr)
| Saved (html_file : pystr)
| AllCompleted.

(** The calls the program makes to the outside, in the order made. *)
Inductive event : Type :=
| ReadJson (file : pystr)
| Makedirs (name : pystr)
| Get (url : pystr) (hdrs : list (pystr * pystr)) (timeout : Z)
| OpenW (file : pystr)
| WriteData (file : pystr) (data : pystr)
| Sleep (secs : spec_float)
| Log (lvl : level) (msg : message).

(** The disk (names are compared as strings, not normalised) and the
    calls made so far. *)
Record world : Type := {
  dirs : gset pystr;
  files : gmap pystr pystr;
  calls : list event
}.

(** How the outside answers.  Each answer may depend on everything that
    happened before. *)
Record environ : Type := {
  lib : pylib;
  (** [open] and [json.load] of the input file; [inl] when one raises *)
  read_json : world -> pystr -> exn + list row;
  (** [os.makedirs(name, exist_ok=True)] returns *)
  makedirs_ok : world -> pystr -> bool;
  (** [requests.get(url, headers=..., timeout=30)] *)
  http_get : world -> pystr -> get_result;
  (** [open(file, 'w', encoding='utf-8')] returns *)
  open_ok : world -> pystr -> bool;
  (** [f.write(data)] and the close: [None] when all of [data] reaches the
      disk, [Some k] when an error is raised with [data[:k]] on disk *)
  write_fails : world -> pystr -> pystr -> option nat;
  (** [time.sleep(secs)] returns (it raises on a negative, NaN or too
      large argument) *)
  sleep_ok : spec_float -> bool
}.

(** ** State and exceptions *)

Inductive result (A : Type) : Type :=
| Ok (a : A)
| Raise (e : exn).
Arguments Ok {A} a.
Arguments Raise {A} e.

Definition M (A : Type) : Type := world -> result A * world.

#[global] Instance M_ret : MRet M := fun A a w => (Ok a, w).

#[global] Instance M_bind : MBind M := fun A B k m w =>
  match m w with
  | (Ok a, w') => k a w'
  | (Raise e, w') => (Raise e, w')
  end.

Definition raise {A : Type} (e : exn) : M A := fun w => (Raise e, w).

(** [try: body / except Exception as e: handler(e)]. *)
Definition try_except {A : Type} (body : M A) (handler : exn -> M A) : M A :=
  fun w =>
    match body w with
    | (Ok a, w') => (Ok a, w')
    | (Raise e, w') => handler e w'
    end.

(** Record a call. *)
Definition call (e : event) : M unit :=
  fun w => (Ok tt, {| dirs := dirs w; files := files w;
                      calls := calls w ++ [e] |}).

Definition logger (lvl : level) (msg : message) : M unit := call (Log lvl msg).

Definition of_option {A : Type} (e : exn) (o : option A) : M A :=
  match o with
  | Some a => mret a
  | None => raise e
  end.

(** The directories [os.makedirs(name)] makes sure exist: [name] and every
    prefix of it that ends before a separator. *)
Fixpoint parents (pre s : pystr) : list pystr :=
  match s with
  | [] => []
  | c :: r =>
      (if N.eqb c (chr "/") then match pre with [] => [] | _ => [pre] end
       else [])
      ++ parents (pre ++ [c]) r
  end.

Definition mkdir_all (E : environ) (name : pystr) : M unit :=
  fun w =>
    if makedirs_ok E w name
    then (Ok tt, {| dirs := dirs w ∪ list_to_set (name :: parents [] name);
                    files := files w; calls := calls w |})
    else (Raise OSError, w).

Definition os_makedirs (E : environ) (name : pystr) : M unit :=
  call (Makedirs name) ;; mkdir_all E name.

Definition requests_get (E : environ) (url : pystr)
    (hdrs : list (pystr * pystr)) (timeout : Z) : M response :=
  fun w =>
    let answer := http_get E w url in
    let w' := {| dirs := dirs w; files := files w;
                 calls := calls w ++ [Get url hdrs timeout] |} in
    match answer with
    | GetRaises e => (Raise (RequestException e), w')
    | GetReturns r => (Ok r, w')
    end.

(** [Response.raise_for_status]: [HTTPError] for the 4xx and 5xx codes. *)
Definition raise_for_status (r : response) : M unit :=
  if ((400 <=? status_code r) && (status_code r <? 600))%Z
  then raise (HTTPError (status_code r))
  else mret tt.

(** [with open(file, 'w', encoding='utf-8') as f: f.write(data)]:
    opening truncates, then the data is written. *)
Definition truncate (E : environ) (file : pystr) : M unit :=
  fun w =>
    if open_ok E w file
    then (Ok tt, {| dirs := dirs w; files := <[file := []]> (files w);
                    calls := calls w |})
    else (Raise OSError, w).

Definition store (E : environ) (file data : pystr) : M unit :=
  fun w =>
    match write_fails E w file data with
    | None => (Ok tt, {| dirs := dirs w; files := <[file := data]> (files w);
                         calls := calls w |})
    | Some k => (Raise OSError,
                 {| dirs := dirs w; files := <[file := firstn k data]> (files w);
                    calls := calls w |})
    end.

Definition write_text (E : environ) (file data : pystr) : M unit :=
  call (OpenW file) ;;
  truncate E file ;;
  call (WriteData file data) ;;
  store E file data.

Definition time_sleep (E : environ) (secs : spec_float) : M unit :=
  call (Sleep secs) ;;
  if sleep_ok E secs then mret tt else raise ValueError.

(** ** download_page (lines 14-50) *)

Definition download_page (E : environ) (wayback_url output_dir : pystr)
    (hdrs : list (pystr * pystr)) : M (option pystr) :=
  try_except
    (os_makedirs E output_dir ;;
     original_url ← of_option IndexError
                       (nth_error (split (chr "/") wayback_url) 5);
     let original_url := Urllib.unquote (lib E) original_url in
     parsed_url ← of_option ValueError (Urllib.urlparse (lib E) original_url);
     let filename := filename_of (Urllib.path parsed_url) in
     let html_file := html_file_of output_dir filename in
     logger INFO (Downloading wayback_url) ;;
     response ← requests_get E wayback_url hdrs 30;
     raise_for_status response ;;
     write_text E html_file (text response) ;;
     mret (Some html_file))
    (fun e =>
       logger ERROR (ErrorDownloading wayback_url e) ;;
       mret None).

(** ** main (lines 52-128) *)

(** Lines 112-126, the body of the loop. *)
Definition process (E : environ) (a : args) (info : url_info) : M unit :=
  parsed ← of_option ValueError (Urllib.urlparse (lib E) (original_url info));
  let path_dir := path_dir_of (output a) (Urllib.path parsed) in
  html_file ← download_page E (wayback_url info) path_dir headers;
  match html_file with
  | Some ((_ :: _) as f) => logger INFO (Saved f)
  | _ => mret tt
  end ;;
  time_sleep E (delay a).

(** Line 112, the [for] loop ([tqdm] only draws a progress bar). *)
Fixpoint for_each (E : environ) (a : args) (wayback_urls : list url_info)
  : M unit :=
  match wayback_urls with
  | [] => mret tt
  | info :: rest => process E a info ;; for_each E a rest
  end.

(** Lines 73-79, inside the [try]. *)
Definition json_load (E : environ) (file : pystr) : M (list row) :=
  fun w =>
    match read_json E w file with
    | inr data => (Ok data, w)
    | inl e => (Raise e, w)
    end.

Definition load_json (E : environ) (file : pystr) : M (list row) :=
  call (ReadJson file) ;; json_load E file.

Definition main (E : environ) (a : args) : M unit :=
  loaded ← try_except
              (data ← load_json E (input_file a); mret (Some data))
              (fun e => logger ERROR (ErrorReadingInput e) ;; mret None);
  match loaded with
  | None => mret tt
  | Some data =>
      let url_data := skip_header data in
      let wayback_urls := convert url_data in
      match wayback_urls with
      | [] => logger ERROR NoValidUrls
      | _ :: _ =>
          logger INFO (FoundUrls (length wayback_urls)) ;;
          (if limit_applies (limit a) wayback_urls
           then logger INFO (LimitedTo (default 0%Z (limit a)))
           else mret tt) ;;
          logger INFO (DownloadingTo (output a)) ;;
          for_each E a (apply_limit (limit a) wayback_urls) ;;
          logger INFO AllCompleted
      end
  end.

(** ** Reading the sequence of calls *)

(** The world [w] after the calls [evs], disk unchanged. *)
Definition after (w : world) (evs : list event) : world :=
  {| dirs := dirs w; files := files w; calls := calls w ++ evs |}.

(** The directories passed to [os.makedirs].  It is the first statement of
    [download_page] and is called nowhere else, so this lists the calls of
    [download_page], one per entry attempted. *)
Definition attempts (evs : list event) : list pystr :=
  omap (fun e => match e with Makedirs name => Some name | _ => None end) evs.

Definition sleeps (evs : list event) : list spec_float :=
  omap (fun e => match e with Sleep secs => Some secs | _ => None end) evs.

Definition gets (evs : list event) : list pystr :=
  omap (fun e => match e with Get url _ _ => Some url | _ => None end) evs.

(** The calls to [os.makedirs] and [time.sleep], in the order made. *)
Definition marks (evs : list event) : list event :=
  omap (fun e => match e with
                 | Makedirs _ | Sleep _ => Some e
                 | _ => None
                 end) evs.

(** The answers of [requests.get] after which lines 39-40 raise. *)
Definition fetch_fails (g : get_result) : bool :=
  match g with
  | GetRaises _ => true
  | GetReturns r => ((400 <=? status_code r) && (status_code r <? 600))%Z
  end.

(** Line 117 returns for this entry. *)
Definition parses (L : pylib) (info : url_info) : bool :=
  bool_decide (is_Some (Urllib.urlparse L (original_url info))).

(** The directory of lines 117-118 for an entry that parses. *)
Definition dir_of (L : pylib) (a : args) (info : url_info) : pystr :=
  path_dir_of (output a)
    (from_option Urllib.path [] (Urllib.urlparse L (original_url info))).

(** What [urlsplit] takes for a scheme: an ASCII letter followed by
    characters of [scheme_chars]. *)
Definition is_scheme (s : pystr) : bool :=
  match s with
  | c :: _ => is_ascii_alpha c && forallb (fun c => mem c Urllib.scheme_chars) s
  | [] => false
  end.

(** The two calls that delimit one iteration of the loop: the first call
    of [download_page] and the pause of line 126. *)
Definition iteration (L : pylib) (a : args) (info : url_info) : list event :=
  [Makedirs (dir_of L a info); Sleep (delay a)].

(** The calls [main] makes before the loop, when there is an entry. *)
Definition preamble (a : args) (wayback_urls : list url_info) : list event :=
  [ReadJson (input_file a); Log INFO (FoundUrls (length wayback_urls))]
  ++ (if limit_applies (limit a) wayback_urls
      then [Log INFO (LimitedTo (default 0%Z (limit a)))] else [])
  ++ [Log INFO (DownloadingTo (output a))].

(** The entries [main] hands to the loop for the rows [data]
    (lines 81-107). *)
Definition selected (a : args) (data : list row) : list url_info :=
  apply_limit (limit a) (convert (skip_header data)).

(** The requests sent: URL, headers and timeout of each [requests.get]. *)
Definition requests (evs : list event)
  : list (pystr * list (pystr * pystr) * Z) :=
  omap (fun e => match e with
                 | Get url hdrs timeout => Some (url, hdrs, timeout)
                 | _ => None
                 end) evs.

(** The request line 120 causes for an entry. *)
Definition request_of (info : url_info) : pystr * list (pystr * pystr) * Z :=
  (wayback_url info, headers, 30%Z).

(** The messages logged at level ERROR. *)
Definition error_logs (evs : list event) : list message :=
  omap (fun e => match e with Log ERROR msg => Some msg | _ => None end) evs.

(** What [os.path.join] puts before a relative component: [a], and a
    separator unless [a] is empty or ends with one. *)
Definition with_sep (a : pystr) : pystr :=
  match a with
  | [] => []
  | _ => if endswith (lit "/") a then a else a ++ lit "/"
  end.

(** Nothing that was on the disk of [w] is missing from that of [w']. *)
Definition keeps_disk (w w' : world) : Prop :=
  dirs w ⊆ dirs w' /\ dom (files w) ⊆ dom (files w').

(** Lines 90-97 read row by row: the test, and the dictionary built. *)
Definition has_two_fields (entry : row) : bool := (2 <=? length entry)%nat.

Definition entry_of (entry : row) : url_info :=
  {| original_url := nth 0 entry [];
     wayback_url := build_wayback_url (nth 1 entry []) (nth 0 entry []) |}.

(** ** Concrete inputs used in the examples *)

Definition plain_lib : pylib :=
  {| utf8_decode_replace := fun b => b;
     bracketed_netloc_ok := fun _ => true;
     nfkc_netloc_ok := fun _ => true |}.

(** An outside where nothing fails: every request is answered with
    [status] and [page], the input file holds [data]. *)
Definition serving (data : list row) (status : Z) (page : pystr) : environ :=
  {| lib := plain_lib;
     read_json := fun _ _ => inr data;
     makedirs_ok := fun _ _ => true;
     http_get := fun _ _ => GetReturns {| status_code := status; text := page |};
     open_ok := fun _ _ => true;
     write_fails := fun _ _ _ => None;
     sleep_ok := fun _ => true |}.

(** An outside where every request times out. *)
Definition offline (data : list row) : environ :=
  {| lib := plain_lib;
     read_json := fun _ _ => inr data;
     makedirs_ok := fun _ _ => true;
     http_get := fun _ _ => GetRaises RequestTimeout;
     open_ok := fun _ _ => true;
     write_fails := fun _ _ _ => None;
     sleep_ok := fun _ => true |}.

(** An outside where the disk fills up: a write fails with nothing
    written. *)
Definition disk_full (page : pystr) : environ :=
  {| lib := plain_lib;
     read_json := fun _ _ => inr [];
     makedirs_ok := fun _ _ => true;
     http_get := fun _ _ => GetReturns {| status_code := 200; text := page |};
     open_ok := fun _ _ => true;
     write_fails := fun _ _ _ => Some O;
     sleep_ok := fun _ => true |}.

(** An input file: the header and two rows. *)
Definition sample_rows : list row :=
  [header;
   [lit "https://example.com/blog/post-1"; lit "20200101000000"];
   [lit "https://example.com/"; lit "20200101000000"; lit "extra"]].

Definition empty_world : world := {| dirs := ∅; files := ∅; calls := [] |}.

(** [--delay]'s default, 1.0. *)
Definition one_second : spec_float := S754_finite false 4503599627370496 (-52).

Definition default_args (limit : option Z) : args :=
  {| input_file := lit "urls.json"; output := lit "archived_pages";
     limit := limit; delay := one_second |}.

Definition post_1 : url_info :=
  {| original_url := lit "https://example.com/blog/post-1";
     wayback_url :=
       build_wayback_url (lit "20200101000000")
                         (lit "https://example.com/blog/post-1") |}.

Definition root_page : url_info :=
  {| original_url := lit "https://example.com/";
     wayback_url :=
       build_wayback_url (lit "20200101000000") (lit "https://example.com/") |}.

(** ** Tactics *)

(** Unfold one monadic step after the other. *)
Ltac run :=
  unfold download_page, process, time_sleep, os_makedirs, write_text,
    load_json;
  unfold try_except, mkdir_all, of_option, logger, requests_get,
    raise_for_status, truncate, store, json_load;
  unfold call, raise, mbind, M_bind, mret, M_ret; cbn beta iota.

(** ** Lemmas on strings *)

Section Strings.

Implicit Types (s t : pystr) (c sep : N).

Lemma mem_true c (chars : pystr) : mem c chars = true <-> c ∈ chars.
Proof.
  unfold mem. rewrite existsb_exists, list_elem_of_In. split.
  - intros (x & Hx & Heq). apply N.eqb_eq in Heq. now subst.
  - intros H. exists c. split; [done | apply N.eqb_refl].
Qed.

Lemma mem_false c (chars : pystr) : mem c chars = false <-> c ∉ chars.
Proof.
  rewrite <- mem_true. destruct (mem c chars); split; intros; congruence.
Qed.

Lemma mem_app c s t : mem c (s ++ t) = mem c s || mem c t.
Proof. unfold mem. apply existsb_app. Qed.

Lemma split_nonempty sep s : split sep s ≠ [].
Proof.
  destruct s as [|c r]; simpl; [done|].
  destruct (N.eqb c sep); [done|]. now destruct (split sep r).
Qed.

(** A separator-free segment followed by a separator is the first field. *)
Lemma split_app sep s t :
  mem sep s = false -> split sep (s ++ sep :: t) = s :: split sep t.
Proof.
  induction s as [|c s IH]; simpl; intros H.
  - now rewrite N.eqb_refl.
  - apply orb_false_iff in H as [Hc Hs].
    rewrite N.eqb_sym in Hc. rewrite Hc, (IH Hs). done.
Qed.

Lemma remove_id c s : mem c s = false -> remove c s = s.
Proof.
  induction s as [|x s IH]; simpl; [done|]. intros H.
  apply orb_false_iff in H as [Hx Hs]. rewrite N.eqb_sym in Hx.
  rewrite Hx. simpl. now rewrite (IH Hs).
Qed.

Lemma find_app_first c s t :
  mem c s = false -> find c (s ++ c :: t) = Some (length s).
Proof.
  induction s as [|x s IH]; simpl; intros H.
  - now rewrite N.eqb_refl.
  - apply orb_false_iff in H as [Hx Hs]. rewrite N.eqb_sym in Hx.
    now rewrite Hx, (IH Hs).
Qed.

(** Every character of a string that passes [forallb (mem _ chars)] avoids
    a character outside [chars]. *)
Lemma mem_outside c (chars : pystr) s :
  mem c chars = false ->
  forallb (fun x => mem x chars) s = true ->
  mem c s = false.
Proof.
  intros Hc Hs. apply mem_false. intros Hin.
  rewrite forallb_forall in Hs. apply list_elem_of_In, Hs in Hin. congruence.
Qed.

End Strings.

(** ** [urlparse] on a bare scheme *)

Section BareScheme.

Variable L : pylib.
Variable s : pystr.
Hypothesis scheme_s : is_scheme s = true.

Lemma scheme_chars_s : forallb (fun c => mem c Urllib.scheme_chars) s = true.
Proof.
  unfold is_scheme in scheme_s. destruct s; [done|].
  now apply andb_true_iff in scheme_s as [_ ?].
Qed.

Lemma scheme_avoids c : mem c Urllib.scheme_chars = false -> mem c s = false.
Proof. intros H. exact (mem_outside _ _ _ H scheme_chars_s). Qed.

Lemma scheme_colon_avoids c :
  mem c (Urllib.scheme_chars ++ lit ":") = false -> mem c (s ++ lit ":") = false.
Proof.
  rewrite !mem_app. intros H. apply orb_false_iff in H as [H1 H2].
  now rewrite (scheme_avoids _ H1), H2.
Qed.

Lemma lstrip_scheme t :
  lstrip Urllib.C0_CONTROL_OR_SPACE (s ++ t) = s ++ t.
Proof.
  unfold is_scheme in scheme_s. destruct s as [|c r]; [done|].
  apply andb_true_iff in scheme_s as [Ha _].
  cbn [app lstrip].
  replace (mem c Urllib.C0_CONTROL_OR_SPACE) with false; [done|].
  symmetry. apply mem_false. intros Hin.
  assert (c < 33)%N as Hlt.
  { unfold Urllib.C0_CONTROL_OR_SPACE in Hin.
    apply list_elem_of_fmap in Hin as (n & -> & Hn).
    apply elem_of_seq in Hn. lia. }
  unfold is_ascii_alpha in Ha.
  apply orb_true_iff in Ha as [Ha|Ha];
    apply andb_true_iff in Ha as [Ha _]; apply N.leb_le in Ha; lia.
Qed.

Lemma unquote_scheme : Urllib.unquote L (s ++ lit ":") = s ++ lit ":".
Proof.
  unfold Urllib.unquote. now rewrite scheme_colon_avoids.
Qed.

Lemma split_scheme_bare :
  Urllib.split_scheme (s ++ lit ":") = (lower s, []).
Proof.
  pose proof scheme_chars_s as Hall.
  pose proof (scheme_avoids (chr ":") eq_refl) as Hcolon.
  unfold is_scheme in scheme_s. destruct s as [|c r]; [done|].
  apply andb_true_iff in scheme_s as [Ha _].
  unfold Urllib.split_scheme.
  change ((c :: r) ++ lit ":") with ((c :: r) ++ chr ":" :: []).
  rewrite find_app_first by done.
  cbn [length hd app]. rewrite Ha.
  rewrite firstn_cons, firstn_app, Nat.sub_diag, firstn_all, firstn_O, app_nil_r.
  rewrite Hall. cbn [andb].
  rewrite skipn_all2; [done|]. cbn [length]. rewrite length_app. cbn [length]. lia.
Qed.

(** Element 5 of the archive URL of [scheme://...] parses to an empty
    path. *)
Lemma urlparse_bare_scheme :
  Urllib.urlparse L (s ++ lit ":")
  = Some {| Urllib.scheme := lower s; Urllib.netloc := []; Urllib.path := [];
            Urllib.params := []; Urllib.query := []; Urllib.fragment := [] |}.
Proof.
  unfold Urllib.urlparse, Urllib.urlsplit.
  rewrite lstrip_scheme.
  rewrite (remove_id 9), (remove_id 13), (remove_id 10)
    by now apply scheme_colon_avoids.
  rewrite split_scheme_bare. cbn.
  now rewrite andb_false_r.
Qed.

End BareScheme.

(** ** Element 5 of the archive URL *)

Lemma split_archive_prefix (t : pystr) :
  split (chr "/") (lit "https://web.archive.org/web/" ++ t)
  = lit "https:" :: [] :: lit "web.archive.org" :: lit "web"
      :: split (chr "/") t.
Proof.
  change (lit "https://web.archive.org/web/" ++ t)
    with (lit "https:" ++ chr "/" ::
            ([] ++ chr "/" ::
               (lit "web.archive.org" ++ chr "/" ::
                  (lit "web" ++ chr "/" :: t)))).
  now rewrite !split_app by reflexivity.
Qed.

Lemma split_wayback_url (timestamp original : pystr) :
  split (chr "/") (build_wayback_url timestamp original)
  = lit "https:" :: [] :: lit "web.archive.org" :: lit "web"
      :: split (chr "/") (timestamp ++ lit "/" ++ original).
Proof. unfold build_wayback_url. apply split_archive_prefix. Qed.

(** With a timestamp free of [/], element 5 is the text of the original
    URL before its first [/]. *)
Lemma element_5 (timestamp first rest : pystr) :
  mem (chr "/") timestamp = false ->
  mem (chr "/") first = false ->
  nth_error
    (split (chr "/") (build_wayback_url timestamp (first ++ lit "/" ++ rest))) 5
  = Some first.
Proof.
  intros Ht Hf. rewrite split_wayback_url.
  change (timestamp ++ lit "/" ++ first ++ lit "/" ++ rest)
    with (timestamp ++ chr "/" :: (first ++ chr "/" :: rest)).
  now rewrite !split_app by done.
Qed.

(** ** Running [download_page] *)

Lemma download_page_returns E wayback_url output_dir hdrs w :
  exists r w', download_page E wayback_url output_dir hdrs w = (Ok r, w').
Proof.
  run. repeat case_match; simplify_eq; eauto.
Qed.

(** The calls of one [download_page]: [os.makedirs] first, then no other
    [os.makedirs], no [time.sleep], and at most one request. *)
Lemma download_page_calls E wayback_url output_dir hdrs w r w' :
  download_page E wayback_url output_dir hdrs w = (r, w') ->
  exists evs,
    calls w' = calls w ++ Makedirs output_dir :: evs
    /\ marks evs = []
    /\ (gets evs = [] \/ gets evs = [wayback_url]).
Proof.
  run. intros H.
  repeat case_match; simplify_eq; cbn [calls];
    rewrite <- ?app_assoc; cbn [app];
    eexists; (split; [reflexivity|]); cbn; auto.
Qed.

(** Directories are only ever added. *)
Lemma download_page_dirs E wayback_url output_dir hdrs w r w' :
  download_page E wayback_url output_dir hdrs w = (r, w') ->
  dirs w ⊆ dirs w'.
Proof.
  run. intros H.
  repeat case_match; simplify_eq; cbn [dirs]; set_solver.
Qed.

(** A path is returned only when the request was answered with a status
    that [raise_for_status] lets through and the whole body was written
    to the file named by lines 20-35. *)
Lemma download_page_success E wayback_url output_dir hdrs w f w' :
  download_page E wayback_url output_dir hdrs w = (Ok (Some f), w') ->
  exists original parsed w1 resp,
    nth_error (split (chr "/") wayback_url) 5 = Some original
    /\ Urllib.urlparse (lib E) (Urllib.unquote (lib E) original) = Some parsed
    /\ f = html_file_of output_dir (filename_of (Urllib.path parsed))
    /\ http_get E w1 wayback_url = GetReturns resp
    /\ fetch_fails (GetReturns resp) = false
    /\ files w' = <[f := text resp]> (files w).
Proof.
  run. intros H.
  repeat case_match; simplify_eq; cbn [files].
  do 4 eexists. repeat split; eauto;
    first [ by rewrite insert_insert_eq | by cbn ].
Qed.

(** Whatever happens, the only file touched is the one named by lines
    20-35, and it is the only path that can be returned. *)
Lemma download_page_target E wayback_url output_dir hdrs w r w'
    original parsed :
  nth_error (split (chr "/") wayback_url) 5 = Some original ->
  Urllib.urlparse (lib E) (Urllib.unquote (lib E) original) = Some parsed ->
  download_page E wayback_url output_dir hdrs w = (r, w') ->
  let f := html_file_of output_dir (filename_of (Urllib.path parsed)) in
  (r = Ok None \/ r = Ok (Some f))
  /\ forall g, g ≠ f -> files w' !! g = files w !! g.
Proof.
  run. intros H5 Hp H.
  repeat case_match; simplify_eq; cbn [files];
    (split; [auto|]); intros g Hg;
    rewrite ?lookup_insert_ne by done; done.
Qed.

(** When the request fails, no file is created or changed and nothing is
    returned. *)
Lemma download_page_fetch_fails E wayback_url output_dir hdrs w r w' :
  (forall w1, fetch_fails (http_get E w1 wayback_url) = true) ->
  download_page E wayback_url output_dir hdrs w = (r, w') ->
  r = Ok None /\ files w' = files w.
Proof.
  run. intros Hf H.
  repeat case_match; simplify_eq; cbn [files]; try done;
    match goal with
    | Hg : http_get E ?w1 _ = GetReturns ?resp |- _ =>
        specialize (Hf w1); rewrite Hg in Hf; cbn in Hf; congruence
    end.
Qed.

(** When the file cannot be opened, or the write fails, nothing is
    returned. *)
Lemma download_page_write_fails E wayback_url output_dir hdrs w r w' :
  (forall w1 f, open_ok E w1 f = false)
  \/ (forall w1 f data, write_fails E w1 f data <> None) ->
  download_page E wayback_url output_dir hdrs w = (r, w') ->
  r = Ok None.
Proof.
  run. intros Hf H.
  repeat case_match; simplify_eq; try done;
    destruct Hf as [Hf|Hf];
    match goal with
    | Hg : open_ok E ?w1 ?f = true |- _ => by rewrite Hf in Hg
    | Hg : write_fails E ?w1 ?f ?d = None |- _ => by apply Hf in Hg
    | _ => idtac
    end;
    match goal with
    | Hg : write_fails E ?w1 ?f ?d = None |- _ => by apply Hf in Hg
    | Hg : open_ok E ?w1 ?f = true |- _ => by rewrite Hf in Hg
    end.
Qed.

(** At most one file is touched by a call. *)
Lemma download_page_one_file E wayback_url output_dir hdrs w r w' :
  download_page E wayback_url output_dir hdrs w = (r, w') ->
  exists f, forall g, g ≠ f -> files w' !! g = files w !! g.
Proof.
  intros H.
  destruct (nth_error (split (chr "/") wayback_url) 5) as [original|] eqn:H5.
  - destruct (Urllib.urlparse (lib E) (Urllib.unquote (lib E) original))
      as [parsed|] eqn:Hp.
    + eexists. eapply download_page_target; eauto.
    + exists []. revert H. run. rewrite H5, Hp. intros H.
      repeat case_match; simplify_eq; done.
  - exists []. revert H. run. rewrite H5. intros H.
    repeat case_match; simplify_eq; done.
Qed.

(** ** Running the loop *)

Lemma marks_app evs1 evs2 : marks (evs1 ++ evs2) = marks evs1 ++ marks evs2.
Proof. apply omap_app. Qed.

Lemma gets_app evs1 evs2 : gets (evs1 ++ evs2) = gets evs1 ++ gets evs2.
Proof. apply omap_app. Qed.

Lemma marks_cons e evs : marks (e :: evs) = marks [e] ++ marks evs.
Proof. apply (marks_app [e]). Qed.

Lemma gets_cons e evs : gets (e :: evs) = gets [e] ++ gets evs.
Proof. apply (gets_app [e]). Qed.

Lemma attempts_marks evs : attempts (marks evs) = attempts evs.
Proof.
  unfold attempts, sleeps, marks.
  induction evs as [|e evs IH]; [done|].
  destruct e; simpl; first [exact IH | f_equal; exact IH].
Qed.

Lemma sleeps_marks evs : sleeps (marks evs) = sleeps evs.
Proof.
  unfold attempts, sleeps, marks.
  induction evs as [|e evs IH]; [done|].
  destruct e; simpl; first [exact IH | f_equal; exact IH].
Qed.

(** One iteration: either line 117 raises before anything is done, or
    [download_page] is called and then [time.sleep], whatever
    [download_page] returned. *)
Lemma process_run E a info w r w' :
  process E a info w = (r, w') ->
  (parses (lib E) info = false /\ r = Raise ValueError /\ w' = w)
  \/ (parses (lib E) info = true
      /\ r = (if sleep_ok E (delay a) then Ok tt else Raise ValueError)
      /\ dirs w ⊆ dirs w'
      /\ exists evs,
           calls w' = calls w ++ evs
           /\ marks evs = iteration (lib E) a info
           /\ (gets evs = [] \/ gets evs = [wayback_url info])).
Proof.
  unfold process, parses, iteration, dir_of.
  destruct (Urllib.urlparse (lib E) (original_url info)) as [parsed|] eqn:Hp.
  2:{ intros H. left. cbv in H. simplify_eq. split; [|done].
      apply bool_decide_eq_false. by intros [? ?]. }
  intros H. right. split; [apply bool_decide_eq_true; eauto|].
  cbn [from_option].
  unfold of_option in H. unfold mbind, M_bind, mret, M_ret in H.
  destruct (download_page E (wayback_url info)
              (path_dir_of (output a) (Urllib.path parsed)) headers w)
    as [r1 w1] eqn:Hd.
  destruct (download_page_returns E (wayback_url info)
              (path_dir_of (output a) (Urllib.path parsed)) headers w)
    as (html_file & w1' & Hret).
  rewrite Hd in Hret. simplify_eq.
  pose proof (download_page_dirs _ _ _ _ _ _ _ Hd) as Hdirs.
  destruct (download_page_calls _ _ _ _ _ _ _ Hd) as (evs & Hc & Hm & Hg).
  unfold time_sleep, logger, call, raise in H.
  unfold mbind, M_bind, mret, M_ret in H.
  destruct html_file as [[|c f]|]; cbn in H;
    destruct (sleep_ok E (delay a)); simplify_eq; cbn [dirs calls];
    (split; [done|]); (split; [done|]);
    rewrite Hc, <- ?app_assoc; cbn [app];
    eexists; (split; [reflexivity|]);
    rewrite marks_cons, gets_cons, marks_app, gets_app, Hm;
    (split; [done|]);
    destruct Hg as [-> | ->]; auto.
Qed.

(** The loop: [k] entries are attempted, the first [k]; each attempt is
    one [os.makedirs] followed, after [download_page] has returned, by one
    [time.sleep] of the configured delay.  The loop stops early only when
    line 117 or [time.sleep] raises. *)
Lemma for_each_run E a urls :
  forall w r w',
    for_each E a urls w = (r, w') ->
    exists evs k,
      calls w' = calls w ++ evs
      /\ k <= length urls
      /\ marks evs = flat_map (iteration (lib E) a) (firstn k urls)
      /\ length (gets evs) <= k
      /\ dirs w ⊆ dirs w'
      /\ (r = Ok tt -> k = length urls)
      /\ (forallb (parses (lib E)) urls = true ->
          sleep_ok E (delay a) = true -> r = Ok tt).
Proof.
  induction urls as [|info rest IH]; intros w r w' H.
  - cbv in H. simplify_eq. exists [], 0.
    rewrite app_nil_r. repeat split; auto.
  - cbn [for_each] in H. unfold mbind, M_bind in H.
    destruct (process E a info w) as [r1 w1] eqn:Hp.
    apply process_run in Hp
      as [(Hpar & -> & ->) | (Hpar & -> & Hd & evs1 & Hc1 & Hm1 & Hg1)].
    + simplify_eq. exists [], 0. rewrite app_nil_r.
      repeat split; auto; try done; cbn; try lia.
      intros Hall. rewrite Hpar in Hall. done.
    + assert (length (gets evs1) <= 1) as Hlen
        by (destruct Hg1 as [-> | ->]; cbn; lia).
      destruct (sleep_ok E (delay a)) eqn:Hs.
      * destruct (IH _ _ _ H)
          as (evs2 & k & Hc2 & Hk & Hm2 & Hg2 & Hd2 & Hok & Hall).
        exists (evs1 ++ evs2), (S k).
        rewrite Hc2, Hc1, <- app_assoc, marks_app, gets_app, length_app.
        rewrite Hm1, Hm2. cbn [length firstn flat_map].
        repeat split; auto; try lia.
        all: lazymatch goal with
             | |- _ ⊆ _ => by etrans
             | |- _ = Ok _ -> _ => by intros Hr; rewrite (Hok Hr)
             | |- _ =>
                 intros Hp _; cbn in Hp;
                 apply andb_true_iff in Hp as [_ Hp]; by auto
             end.
      * simplify_eq. exists evs1, 1.
        rewrite Hm1. cbn [length firstn flat_map]. rewrite app_nil_r.
        repeat split; auto; try lia; done.
Qed.

(** ** Running [main] *)

Lemma after_after w evs1 evs2 : after (after w evs1) evs2 = after w (evs1 ++ evs2).
Proof. unfold after. cbn. now rewrite app_assoc. Qed.

Lemma main_unfold E a w :
  main E a w =
  match read_json E (after w [ReadJson (input_file a)]) (input_file a) with
  | inl e =>
      (Ok tt, after w [ReadJson (input_file a); Log ERROR (ErrorReadingInput e)])
  | inr data =>
      match convert (skip_header data) with
      | [] => (Ok tt, after w [ReadJson (input_file a); Log ERROR NoValidUrls])
      | wayback_urls =>
          match for_each E a (apply_limit (limit a) wayback_urls)
                  (after w (preamble a wayback_urls)) with
          | (Ok _, w1) => (Ok tt, after w1 [Log INFO AllCompleted])
          | (Raise e, w1) => (Raise e, w1)
          end
      end
  end.
Proof.
  unfold main, preamble. run. fold (after w [ReadJson (input_file a)]).
  destruct (read_json E _ _) as [e|data]; cbn [calls dirs files].
  - unfold after. cbn. now rewrite <- app_assoc.
  - destruct (convert (skip_header data)) as [|u us] eqn:Hc.
    + unfold after. cbn. now rewrite <- app_assoc.
    + destruct (limit_applies (limit a) (u :: us)); cbn [calls dirs files];
        unfold after; cbn [calls dirs files app]; rewrite <- ?app_assoc;
        cbn [app];
        match goal with
        | |- context [for_each ?E ?a ?l ?w] =>
            destruct (for_each E a l w) as [[[]|e] w1]
        end; done.
Qed.

Lemma attempts_iterations L a urls :
  attempts (flat_map (iteration L a) urls) = List.map (dir_of L a) urls.
Proof.
  induction urls as [|info urls IH]; [done|].
  cbn [flat_map List.map]. unfold attempts in *.
  rewrite omap_app. cbn. f_equal. exact IH.
Qed.

Lemma sleeps_iterations L a urls :
  sleeps (flat_map (iteration L a) urls) = repeat (delay a) (length urls).
Proof.
  induction urls as [|info urls IH]; [done|].
  cbn [flat_map length repeat]. unfold sleeps in *.
  rewrite omap_app. cbn. f_equal. exact IH.
Qed.

Lemma apply_limit_nil limit : apply_limit limit [] = [].
Proof.
  unfold apply_limit, slice_upto.
  destruct (limit_applies limit []); [|done].
  destruct (_ <? _)%Z; apply firstn_nil.
Qed.

(** What [main] does once the input file is read: the loop runs over
    [selected a data], and its calls are those of [for_each_run]. *)
Lemma main_run E a w data :
  read_json E (after w [ReadJson (input_file a)]) (input_file a) = inr data ->
  exists evs k,
    calls (main E a w).2 = calls w ++ evs
    /\ k <= length (selected a data)
    /\ marks evs = flat_map (iteration (lib E) a) (firstn k (selected a data))
    /\ length (gets evs) <= k
    /\ ((main E a w).1 = Ok tt -> k = length (selected a data)).
Proof.
  intros Hread. rewrite main_unfold, Hread. unfold selected.
  destruct (convert (skip_header data)) as [|u us] eqn:Hc.
  - exists [ReadJson (input_file a); Log ERROR NoValidUrls], 0.
    rewrite apply_limit_nil. repeat split; cbn; auto.
  - destruct (for_each E a (apply_limit (limit a) (u :: us))
                (after w (preamble a (u :: us)))) as [r w1] eqn:Hrun.
    destruct (for_each_run _ _ _ _ _ _ Hrun)
      as (evs & k & Hcalls & Hk & Hm & Hg & _ & Hok & _).
    assert (marks (preamble a (u :: us)) = [] /\ gets (preamble a (u :: us)) = [])
      as [Hpm Hpg]
      by (unfold preamble; destruct (limit_applies _ _); done).
    destruct r as [[]|e]; cbn [fst snd after calls].
    + exists (preamble a (u :: us) ++ evs ++ [Log INFO AllCompleted]), k.
      rewrite Hcalls. cbn [after calls]. rewrite <- !app_assoc.
      rewrite !marks_app, !gets_app, Hpm, Hpg, Hm.
      cbn. rewrite !app_nil_r. repeat split; auto; lia.
    + exists (preamble a (u :: us) ++ evs), k.
      rewrite Hcalls. cbn [after calls]. rewrite <- !app_assoc.
      rewrite !marks_app, !gets_app, Hpm, Hpg, Hm.
      cbn. repeat split; auto; done.
Qed.

(** ** Lemmas on [convert] *)

Lemma convert_step_app acc entry :
  convert_step acc entry = acc ++ convert_step [] entry.
Proof. unfold convert_step. destruct (2 <=? length entry)%nat; [done|]. now rewrite app_nil_r. Qed.

Lemma fold_convert_step url_data acc :
  fold_left convert_step url_data acc
  = acc ++ flat_map (convert_step []) url_data.
Proof.
  revert acc. induction url_data as [|entry rest IH]; intros acc; cbn.
  - now rewrite app_nil_r.
  - rewrite IH, (convert_step_app acc). now rewrite <- app_assoc.
Qed.

Lemma convert_flat_map url_data :
  convert url_data = flat_map (convert_step []) url_data.
Proof. unfold convert. now rewrite fold_convert_step. Qed.

Lemma convert_app rows1 rows2 :
  convert (rows1 ++ rows2) = convert rows1 ++ convert rows2.
Proof. rewrite !convert_flat_map. apply flat_map_app. Qed.

Lemma convert_cons entry rest :
  convert (entry :: rest) = convert_step [] entry ++ convert rest.
Proof. now rewrite !convert_flat_map. Qed.

Lemma apply_limit_firstn (n : Z) (wayback_urls : list url_info) :
  (0 < n < Z.of_nat (length wayback_urls))%Z ->
  apply_limit (Some n) wayback_urls = firstn (Z.to_nat n) wayback_urls.
Proof.
  intros [Hpos Hlt]. unfold apply_limit, limit_applies, slice_upto.
  destruct (Z.eqb_spec n 0); [lia|].
  destruct (Z.ltb_spec n (Z.of_nat (length wayback_urls))); [|lia].
  cbn. destruct (Z.ltb_spec n 0); [lia|done].
Qed.

(** The calls of [main], whatever the input file holds. *)
Lemma main_calls E a w :
  exists evs processed,
    calls (main E a w).2 = calls w ++ evs
    /\ marks evs = flat_map (iteration (lib E) a) processed
    /\ length (gets evs) <= length processed.
Proof.
  destruct (read_json E (after w [ReadJson (input_file a)]) (input_file a))
    as [e|data] eqn:Hread.
  - rewrite main_unfold, Hread.
    exists [ReadJson (input_file a); Log ERROR (ErrorReadingInput e)], [].
    repeat split; cbn; auto.
  - destruct (main_run E a w data Hread) as (evs & k & Hc & Hk & Hm & Hg & _).
    exists evs, (firstn k (selected a data)).
    rewrite length_firstn. repeat split; auto; lia.
Qed.

(** * The claims *)

(** ** File names *)

(** C1, as stated, fails: for "https://example.com/blog/post-1" the file
    written is [archived_pages/blog_post-1/.html], and for
    "https://example.com/" it is [archived_pages/.html]; no file named
    [_blog_post-1/blog_post-1.html] or [index.html] is written. *)
Lemma C1_files_written :
  let out :=
    for_each (serving [] 200 (lit "<html>")) (default_args None)
             [post_1; root_page] empty_world in
  out.1 = Ok tt
  /\ files out.2
     = {[ lit "archived_pages/blog_post-1/.html" := lit "<html>";
          lit "archived_pages/.html" := lit "<html>" ]}
  /\ files out.2 !! lit "archived_pages/_blog_post-1/blog_post-1.html" = None
  /\ files out.2 !! lit "archived_pages/index.html" = None.
Proof. vm_compute. repeat split; reflexivity. Qed.

(** C1 (amended). For an entry with original URL
    "https://example.com/blog/post-1" the directory of the entry is
    [os.path.join(output, "blog_post-1")]: the leading separator of the
    URL path is stripped and the others become underscores, so there is no
    leading underscore.  The file-name rule of [download_page] (append
    "index" to a path that ends with a separator, replace separators by
    underscores, strip the underscores at both ends, add ".html") maps the
    URL path "/blog/post-1" to "blog_post-1.html" in that directory, and
    the path "/" of "https://example.com/" to the stem "index". *)
Theorem C1_directory_and_stem (L : pylib) (a : args) :
  Urllib.path <$> Urllib.urlparse L (original_url post_1)
  = Some (lit "/blog/post-1")
  /\ dir_of L a post_1 = os_path_join (output a) (lit "blog_post-1")
  /\ dir_of L (default_args None) post_1 = lit "archived_pages/blog_post-1"
  /\ filename_of (lit "/blog/post-1") = lit "blog_post-1"
  /\ html_file_of (lit "archived_pages/blog_post-1")
                  (filename_of (lit "/blog/post-1"))
     = lit "archived_pages/blog_post-1/blog_post-1.html"
  /\ Urllib.path <$> Urllib.urlparse L (original_url root_page)
     = Some (lit "/")
  /\ filename_of (lit "/") = lit "index".
Proof.
  assert (Urllib.path <$> Urllib.urlparse L (original_url post_1)
          = Some (lit "/blog/post-1")) as Hp by (vm_compute; reflexivity).
  assert (forall b, dir_of L b post_1
                    = os_path_join (output b) (lit "blog_post-1")) as Hd.
  { intros b. unfold dir_of.
    destruct (Urllib.urlparse L (original_url post_1)) as [parsed|];
      [|discriminate Hp].
    cbn [from_option]. simpl in Hp. injection Hp as Hp. rewrite Hp.
    unfold path_dir_of. f_equal. }
  split; [exact Hp|]. split; [apply Hd|]. split; [now rewrite Hd|].
  repeat split; vm_compute; reflexivity.
Qed.

(** C2, as stated, fails for some URLs that contain "://": a scheme with
    a character outside [scheme_chars] is not split off by [urlparse], so
    the stem is the scheme and its colon; and with a separator in the
    timestamp element 5 is part of the timestamp. *)
Lemma C2_stem_not_always_empty :
  let E := serving [] 200 (lit "<html>") in
  (nth_error (split (chr "/")
                (build_wayback_url (lit "20200101000000")
                                   (lit "my_app://host/page"))) 5
   = Some (lit "my_app:")
   /\ (download_page E
         (build_wayback_url (lit "20200101000000") (lit "my_app://host/page"))
         (lit "out") headers empty_world).1
      = Ok (Some (lit "out/my_app:.html")))
  /\ (nth_error (split (chr "/")
                   (build_wayback_url (lit "2020/01")
                                      (lit "https://example.com/page"))) 5
      = Some (lit "01")
      /\ (download_page E
            (build_wayback_url (lit "2020/01") (lit "https://example.com/page"))
            (lit "out") headers empty_world).1
         = Ok (Some (lit "out/01.html"))).
Proof. vm_compute. repeat split; reflexivity. Qed.

(** C2 (amended). For every timestamp without a separator and every
    original URL [scheme://rest] whose scheme is an ASCII letter followed
    by letters, digits, [+], [-] or [.], element 5 of the archive URL
    split on the separator is the scheme and its colon; [urlparse] gives
    it an empty path, so the stem is empty: the only file [download_page]
    can write or return is [.html] in the directory of the entry, whatever
    [rest] is. *)
Theorem C2_bare_scheme E timestamp s rest output_dir hdrs w :
  mem (chr "/") timestamp = false ->
  is_scheme s = true ->
  let wayback_url := build_wayback_url timestamp (s ++ lit "://" ++ rest) in
  let target := os_path_join output_dir (lit ".html") in
  let out := download_page E wayback_url output_dir hdrs w in
  nth_error (split (chr "/") wayback_url) 5 = Some (s ++ lit ":")
  /\ Urllib.path <$> Urllib.urlparse (lib E)
                       (Urllib.unquote (lib E) (s ++ lit ":")) = Some []
  /\ html_file_of output_dir (filename_of []) = target
  /\ (out.1 = Ok None \/ out.1 = Ok (Some target))
  /\ (forall g, g ≠ target -> files out.2 !! g = files w !! g)
  /\ (out.1 = Ok (Some target) ->
      exists resp, files out.2 = <[target := text resp]> (files w)).
Proof.
  intros Hts Hs wayback_url target out.
  assert (nth_error (split (chr "/") wayback_url) 5 = Some (s ++ lit ":"))
    as H5.
  { subst wayback_url.
    replace (s ++ lit "://" ++ rest)
      with ((s ++ lit ":") ++ lit "/" ++ (lit "/" ++ rest))
      by now rewrite <- app_assoc.
    apply element_5; [done|].
    now apply scheme_colon_avoids. }
  pose proof (urlparse_bare_scheme (lib E) s Hs) as Hp.
  rewrite <- (unquote_scheme (lib E) s Hs) in Hp at 1.
  split; [done|]. split; [now rewrite Hp|]. split; [reflexivity|].
  destruct out as [r w'] eqn:Hout. subst out. cbn [fst snd].
  destruct (download_page_target _ _ _ _ _ _ _ _ _ H5 Hp Hout) as [Hr Hfiles].
  cbn [Urllib.path] in Hr, Hfiles.
  split; [exact Hr|]. split; [exact Hfiles|].
  intros ->.
  destruct (download_page_success _ _ _ _ _ _ _ Hout)
    as (_ & _ & _ & resp & _ & _ & _ & _ & _ & Hw).
  eauto.
Qed.

Lemma C2_bare_scheme_witness :
  let out :=
    download_page (serving [] 200 (lit "<html>")) (wayback_url post_1)
                  (lit "archived_pages/blog_post-1") headers empty_world in
  out.1 = Ok None
  \/ out.1
     = Ok (Some (os_path_join (lit "archived_pages/blog_post-1") (lit ".html"))).
Proof.
  apply (C2_bare_scheme (serving [] 200 (lit "<html>")) (lit "20200101000000")
           (lit "https") (lit "example.com/blog/post-1")
           (lit "archived_pages/blog_post-1") headers empty_world);
    reflexivity.
Defined.

(** ** The fetch boundary *)

(** C3, as stated, fails for the statuses outside 2xx that
    [raise_for_status] lets through: answered with 304, [download_page]
    writes the body and returns the path, not [None]. *)
Lemma C3_status_304_is_saved :
  let out :=
    download_page (serving [] 304 (lit "<html>")) (wayback_url post_1)
                  (lit "archived_pages/blog_post-1") headers empty_world in
  out.1 = Ok (Some (lit "archived_pages/blog_post-1/.html"))
  /\ files out.2 !! lit "archived_pages/blog_post-1/.html"
     = Some (lit "<html>").
Proof. vm_compute. split; reflexivity. Qed.

(** C3 (amended). For every entry, a transport error, a timeout, a 4xx
    or 5xx status, and an error while opening or writing the file are all
    caught inside [download_page], which then returns [None]; it never
    raises and sends at most one request.  Consequently, in a run whose
    original URLs [urlparse] accepts and whose delay [time.sleep] accepts,
    every entry is attempted, in order, whatever the outcome of the
    entries before it. *)
Theorem C3_failure_isolation E :
  (forall wayback_url output_dir hdrs w,
      let out := download_page E wayback_url output_dir hdrs w in
      (exists r, out.1 = Ok r)
      /\ ((forall w1, fetch_fails (http_get E w1 wayback_url) = true) ->
          out.1 = Ok None)
      /\ ((forall w1 f, open_ok E w1 f = false) -> out.1 = Ok None)
      /\ ((forall w1 f data, write_fails E w1 f data <> None) ->
          out.1 = Ok None)
      /\ exists evs,
           calls out.2 = calls w ++ evs /\ length (gets evs) <= 1)
  /\ (forall a wayback_urls w,
        forallb (parses (lib E)) wayback_urls = true ->
        sleep_ok E (delay a) = true ->
        let out := for_each E a wayback_urls w in
        out.1 = Ok tt
        /\ exists evs,
             calls out.2 = calls w ++ evs
             /\ attempts evs = List.map (dir_of (lib E) a) wayback_urls).
Proof.
  split.
  - intros wayback_url output_dir hdrs w out.
    destruct out as [r w'] eqn:Hout. subst out. cbn [fst snd].
    destruct (download_page_returns E wayback_url output_dir hdrs w)
      as (r0 & w0 & Hret).
    split; [rewrite Hret in Hout; simplify_eq; eauto|].
    split; [intros Hf; eapply download_page_fetch_fails; eauto|].
    split; [intros Hf; eapply download_page_write_fails; eauto|].
    split; [intros Hf; eapply download_page_write_fails; eauto|].
    destruct (download_page_calls _ _ _ _ _ _ _ Hout) as (evs & Hc & _ & Hg).
    exists (Makedirs output_dir :: evs). split; [done|].
    rewrite gets_cons. destruct Hg as [-> | ->]; cbn; lia.
  - intros a wayback_urls w Hparse Hsleep out.
    destruct out as [r w'] eqn:Hout. subst out. cbn [fst snd].
    destruct (for_each_run _ _ _ _ _ _ Hout)
      as (evs & k & Hc & Hk & Hm & _ & _ & Hok & Hall).
    specialize (Hall Hparse Hsleep). specialize (Hok Hall). subst k.
    split; [done|]. exists evs. split; [done|].
    now rewrite <- attempts_marks, Hm, firstn_all, attempts_iterations.
Qed.

Lemma C3_failure_isolation_witness :
  let out :=
    for_each (offline []) (default_args None) [post_1; root_page] empty_world in
  out.1 = Ok tt
  /\ exists evs,
       calls out.2 = calls empty_world ++ evs
       /\ attempts evs
          = List.map (dir_of plain_lib (default_args None)) [post_1; root_page].
Proof.
  apply (proj2 (C3_failure_isolation (offline []))); reflexivity.
Defined.

(** ** Input loader *)

(** C4. When the first row of the input is the literal header
    [["original", "timestamp", "endkey"]], the entries are built from the
    rows after it; when the first row is anything else, or there is no
    row, the entries are built from all rows (each still subject to the
    two-field test of [convert]). *)
Theorem C4_header_skip :
  (forall rest,
      skip_header (header :: rest) = rest
      /\ convert (skip_header (header :: rest)) = convert rest)
  /\ (forall first rest,
        first <> header ->
        skip_header (first :: rest) = first :: rest
        /\ convert (skip_header (first :: rest)) = convert (first :: rest))
  /\ skip_header [] = [].
Proof.
  split; [|split]; [| |done].
  - intros rest. unfold skip_header. now rewrite bool_decide_eq_true_2.
  - intros first rest Hne. unfold skip_header.
    now rewrite bool_decide_eq_false_2.
Qed.

Lemma C4_header_skip_witness :
  [lit "original"; lit "timestamp"] <> header
  /\ skip_header [[lit "original"; lit "timestamp"]; header]
     = [[lit "original"; lit "timestamp"]; header].
Proof.
  assert ([lit "original"; lit "timestamp"] <> header) as Hne
    by (apply (bool_decide_unpack _); vm_compute; exact I).
  split; [exact Hne|].
  apply (proj1 (proj2 C4_header_skip)). exact Hne.
Defined.

(** C5. In the rows after the header, a row with fewer than two fields
    adds no entry, and a row with at least two fields adds exactly one,
    whose original URL is field 0 and whose archive URL is built from
    field 1 (the timestamp) and field 0; further fields are ignored.  The
    entries come in the order of their rows. *)
Theorem C5_entry_filtering (before after : list row) (entry : row) :
  (length entry < 2 ->
   convert (before ++ entry :: after) = convert before ++ convert after)
  /\ (forall original timestamp extra,
        entry = original :: timestamp :: extra ->
        convert (before ++ entry :: after)
        = convert before
          ++ {| original_url := original;
                wayback_url := build_wayback_url timestamp original |}
          :: convert after).
Proof.
  rewrite convert_app, convert_cons. split.
  - intros Hlen. unfold convert_step.
    destruct (Nat.leb_spec 2 (length entry)); [lia|done].
  - now intros original timestamp extra ->.
Qed.

Lemma C5_entry_filtering_witness :
  (length [lit "only-one-field"] < 2
   /\ convert ([[lit "a"; lit "1"]] ++ [lit "only-one-field"] :: [[lit "b"; lit "2"; lit "x"]])
      = convert [[lit "a"; lit "1"]] ++ convert [[lit "b"; lit "2"; lit "x"]])
  /\ convert ([] ++ [lit "b"; lit "2"; lit "x"] :: [])
     = convert []
       ++ {| original_url := lit "b";
             wayback_url := build_wayback_url (lit "2") (lit "b") |}
       :: convert [].
Proof.
  split.
  - split; [cbn; lia|].
    apply (proj1 (C5_entry_filtering [[lit "a"; lit "1"]]
                    [[lit "b"; lit "2"; lit "x"]] [lit "only-one-field"])).
    cbn. lia.
  - apply (proj2 (C5_entry_filtering [] [] [lit "b"; lit "2"; lit "x"])
             (lit "b") (lit "2") [lit "x"]).
    reflexivity.
Defined.

(** ** Limit *)

(** C6, as stated, fails at N = 0: with two entries and [--limit 0] both
    entries are handed to the loop, not the first zero. *)
Lemma C6_limit_zero_not_truncated :
  (0 < Z.of_nat (length (convert (skip_header sample_rows))))%Z
  /\ selected (default_args (Some 0%Z)) sample_rows = [post_1; root_page]
  /\ selected (default_args (Some 0%Z)) sample_rows
     <> firstn (Z.to_nat 0) (convert (skip_header sample_rows)).
Proof. split; [done|]. split; [reflexivity|discriminate]. Qed.

(** C6 (amended). For every N with 0 < N < number of valid entries,
    running with [--limit N] hands exactly the first N entries to the loop,
    in input order; the entries attempted are the first [k] of them, in
    that order, and all N when the run ends normally. *)
Theorem C6_limit_truncation E a w data (n : Z) :
  limit a = Some n ->
  (0 < n < Z.of_nat (length (convert (skip_header data))))%Z ->
  read_json E (after w [ReadJson (input_file a)]) (input_file a) = inr data ->
  selected a data = firstn (Z.to_nat n) (convert (skip_header data))
  /\ exists evs k,
       calls (main E a w).2 = calls w ++ evs
       /\ k <= Z.to_nat n
       /\ attempts evs
          = List.map (dir_of (lib E) a) (firstn k (convert (skip_header data)))
       /\ ((main E a w).1 = Ok tt -> k = Z.to_nat n).
Proof.
  intros Hlimit Hn Hread.
  assert (selected a data = firstn (Z.to_nat n) (convert (skip_header data)))
    as Hsel by (unfold selected; rewrite Hlimit; now apply apply_limit_firstn).
  split; [done|].
  destruct (main_run E a w data Hread) as (evs & k & Hc & Hk & Hm & _ & Hok).
  rewrite Hsel in Hk, Hm, Hok. rewrite length_firstn in Hk, Hok.
  exists evs, k. split; [done|]. split; [lia|]. split.
  - rewrite <- attempts_marks, Hm, attempts_iterations.
    rewrite firstn_firstn. f_equal. f_equal. lia.
  - intros Hr. specialize (Hok Hr). lia.
Qed.

Lemma C6_limit_truncation_witness :
  selected (default_args (Some 1%Z)) sample_rows
  = firstn (Z.to_nat 1) (convert (skip_header sample_rows))
  /\ exists evs k,
       calls (main (offline sample_rows) (default_args (Some 1%Z))
                   empty_world).2
       = calls empty_world ++ evs
       /\ k <= Z.to_nat 1
       /\ attempts evs
          = List.map (dir_of plain_lib (default_args (Some 1%Z)))
                     (firstn k (convert (skip_header sample_rows)))
       /\ ((main (offline sample_rows) (default_args (Some 1%Z))
                 empty_world).1 = Ok tt -> k = Z.to_nat 1).
Proof.
  apply (C6_limit_truncation (offline sample_rows) (default_args (Some 1%Z))
           empty_world sample_rows 1%Z);
    [reflexivity | vm_compute; split; reflexivity | reflexivity].
Defined.



(** ** No entry *)

(** C8. When the input parses to an empty array, to the header row alone,
    or to rows none of which has two fields, [main] logs one error and
    returns: it calls neither [os.makedirs] nor [requests.get] nor
    [time.sleep]. *)
Theorem C8_zero_entries E a w data :
  read_json E (after w [ReadJson (input_file a)]) (input_file a) = inr data ->
  convert (skip_header data) = [] ->
  main E a w
  = (Ok tt, after w [ReadJson (input_file a); Log ERROR NoValidUrls])
  /\ convert (skip_header []) = []
  /\ convert (skip_header [header]) = [].
Proof.
  intros Hread Hc. rewrite main_unfold, Hread, Hc. done.
Qed.

Lemma C8_zero_entries_witness :
  main (serving [header] 200 (lit "<html>")) (default_args None) empty_world
  = (Ok tt,
     after empty_world [ReadJson (lit "urls.json"); Log ERROR NoValidUrls])
  /\ convert (skip_header []) = []
  /\ convert (skip_header [header]) = [].
Proof.
  apply (C8_zero_entries (serving [header] 200 (lit "<html>"))
           (default_args None) empty_world [header]); reflexivity.
Defined.

(** ** The loop *)

(** C9. In every run, each entry processed (each call of
    [download_page], marked by its [os.makedirs]) is followed by one
    [time.sleep] of the configured delay before anything else is attempted,
    whatever [download_page] returned: a run that processes N entries
    issues N sleeps of that delay. *)
Theorem C9_delay_invariant E a w :
  exists evs processed,
    calls (main E a w).2 = calls w ++ evs
    /\ marks evs = flat_map (iteration (lib E) a) processed
    /\ attempts evs = List.map (dir_of (lib E) a) processed
    /\ sleeps evs = repeat (delay a) (length (attempts evs)).
Proof.
  destruct (main_calls E a w) as (evs & processed & Hc & Hm & _).
  exists evs, processed. split; [done|]. split; [done|].
  assert (attempts evs = List.map (dir_of (lib E) a) processed) as Ha
    by now rewrite <- attempts_marks, Hm, attempts_iterations.
  split; [done|].
  now rewrite Ha, length_map, <- sleeps_marks, Hm, sleeps_iterations.
Qed.

(** ** The disk *)

(** C10, as stated, fails: the output directory is created before the
    request, so a failed fetch leaves it behind; and the file is truncated
    when opened, so a failed write of an entry that had been saved before
    loses the earlier content. *)
Lemma C10_disk_changes_on_failure :
  (let out :=
     download_page (offline []) (wayback_url post_1)
                   (lit "archived_pages/blog_post-1") headers empty_world in
   out.1 = Ok None
   /\ dirs out.2 = {[ lit "archived_pages"; lit "archived_pages/blog_post-1" ]}
   /\ dirs out.2 <> dirs empty_world)
  /\ (let saved :=
        {| dirs := {[ lit "archived_pages"; lit "archived_pages/blog_post-1" ]};
           files := {[ lit "archived_pages/blog_post-1/.html" := lit "<old>" ]};
           calls := [] |} in
      let out :=
        download_page (disk_full (lit "<new>")) (wayback_url post_1)
                      (lit "archived_pages/blog_post-1") headers saved in
      out.1 = Ok None
      /\ files saved !! lit "archived_pages/blog_post-1/.html"
         = Some (lit "<old>")
      /\ files out.2 !! lit "archived_pages/blog_post-1/.html" = Some []).
Proof.
  split; [split; [|split]|]; try (vm_compute; repeat split; reflexivity).
  intros H. vm_compute in H. discriminate H.
Qed.

(** C10 (amended). A call of [download_page] never removes a directory
    and touches at most one file; when the fetch fails (transport error,
    timeout, 4xx or 5xx status) it returns [None] and no file is created
    or changed.  The directory of the entry may have been created. *)
Theorem C10_failed_fetch_leaves_files E wayback_url output_dir hdrs w :
  let out := download_page E wayback_url output_dir hdrs w in
  dirs w ⊆ dirs out.2
  /\ (exists f, forall g, g ≠ f -> files out.2 !! g = files w !! g)
  /\ ((forall w1, fetch_fails (http_get E w1 wayback_url) = true) ->
      out.1 = Ok None /\ files out.2 = files w).
Proof.
  intros out. destruct out as [r w'] eqn:Hout. subst out. cbn [fst snd].
  split; [eapply download_page_dirs; eauto|].
  split; [eapply download_page_one_file; eauto|].
  intros Hf. eapply download_page_fetch_fails; eauto.
Qed.

Lemma C10_failed_fetch_leaves_files_witness :
  let out :=
    download_page (offline []) (wayback_url post_1)
                  (lit "archived_pages/blog_post-1") headers empty_world in
  out.1 = Ok None /\ files out.2 = files empty_world.
Proof.
  apply (proj2 (proj2 (C10_failed_fetch_leaves_files (offline [])
                         (wayback_url post_1)
                         (lit "archived_pages/blog_post-1") headers
                         empty_world))).
  reflexivity.
Defined.

(** * Further properties of the code *)

(** ** Line 22: element 5 of the archive URL *)

Lemma split_length_cons sep c (s : pystr) :
  length (split sep s) <= length (split sep (c :: s)).
Proof.
  cbn [split]. destruct (N.eqb c sep); cbn; [lia|].
  destruct (split sep s); cbn; lia.
Qed.

Lemma split_length_app sep (s t : pystr) :
  length (split sep t) <= length (split sep (s ++ t)).
Proof.
  induction s as [|c s IH]; [done|].
  etrans; [exact IH|]. apply split_length_cons.
Qed.

Lemma split_length_sep sep (s t : pystr) :
  2 <= length (split sep (s ++ sep :: t)).
Proof.
  etrans; [|apply split_length_app]. cbn [split]. rewrite N.eqb_refl.
  pose proof (split_nonempty sep t). destruct (split sep t); [done|cbn; lia].
Qed.

(** X1. The archive URL built on line 93 always has at least six fields
    when split on the separator, whatever the timestamp and the original
    URL are: the index of line 22 is never out of range for the URLs
    [main] passes to [download_page]. *)
Theorem X1_element_5_exists (timestamp original : pystr) :
  6 <= length (split (chr "/") (build_wayback_url timestamp original))
  /\ is_Some (nth_error (split (chr "/")
                           (build_wayback_url timestamp original)) 5).
Proof.
  assert (6 <= length (split (chr "/") (build_wayback_url timestamp original)))
    as Hlen.
  { rewrite split_wayback_url. cbn [length].
    pose proof (split_length_sep (chr "/") timestamp original) as H.
    change (timestamp ++ lit "/" ++ original)
      with (timestamp ++ chr "/" :: original). lia. }
  split; [done|].
  destruct (nth_error _ 5) eqn:Hn; [eauto|].
  apply nth_error_None in Hn. lia.
Qed.

(** X2. When the timestamp has no separator, element 5 of the archive
    URL is element 0 of the original URL split on the separator: line 22
    keeps only the text of the original URL before its first separator. *)
Theorem X2_element_5_is_first_field (timestamp original : pystr) :
  mem (chr "/") timestamp = false ->
  nth_error (split (chr "/") (build_wayback_url timestamp original)) 5
  = nth_error (split (chr "/") original) 0.
Proof.
  intros Ht. rewrite split_wayback_url.
  change (timestamp ++ lit "/" ++ original)
    with (timestamp ++ chr "/" :: original).
  now rewrite split_app.
Qed.

Lemma X2_element_5_is_first_field_witness :
  nth_error (split (chr "/")
               (build_wayback_url (lit "20200101000000")
                                  (lit "example.com/blog/post-1"))) 5
  = nth_error (split (chr "/") (lit "example.com/blog/post-1")) 0.
Proof.
  apply (X2_element_5_is_first_field (lit "20200101000000")
           (lit "example.com/blog/post-1")).
  reflexivity.
Defined.

(** ** Lines 25-35 and 118: names on disk *)

Section Stripping.

Implicit Types (s t chars : pystr) (c : N).

Lemma lstrip_head chars s :
  match lstrip chars s with
  | c :: _ => mem c chars = false
  | [] => True
  end.
Proof.
  induction s as [|x s IH]; cbn [lstrip]; [done|].
  destruct (mem x chars) eqn:Hx; [exact IH|exact Hx].
Qed.

Lemma lstrip_suffix chars s : exists pre, s = pre ++ lstrip chars s.
Proof.
  induction s as [|x s [pre IH]]; cbn [lstrip]; [by exists []|].
  destruct (mem x chars); [|by exists []].
  exists (x :: pre). cbn. now rewrite <- IH.
Qed.

Lemma rstrip_prefix chars s : exists post, s = rstrip chars s ++ post.
Proof.
  unfold rstrip. destruct (lstrip_suffix chars (rev s)) as [pre H].
  exists (rev pre). rewrite <- rev_app_distr, <- H. now rewrite rev_involutive.
Qed.

Lemma mem_app_false c s t :
  mem c (s ++ t) = false <-> mem c s = false /\ mem c t = false.
Proof. rewrite mem_app. apply orb_false_iff. Qed.

Lemma strip_avoids c chars s : mem c s = false -> mem c (strip chars s) = false.
Proof.
  intros H. unfold strip.
  destruct (lstrip_suffix chars s) as [pre Hl].
  destruct (rstrip_prefix chars (lstrip chars s)) as [post Hr].
  rewrite Hl, Hr in H.
  apply mem_app_false in H as [_ H]. now apply mem_app_false in H as [H _].
Qed.

(** The first and the last character of a stripped string are not among
    the stripped characters. *)
Lemma strip_head chars s :
  match strip chars s with
  | c :: _ => mem c chars = false
  | [] => True
  end.
Proof.
  unfold strip.
  destruct (rstrip_prefix chars (lstrip chars s)) as [post Hr].
  pose proof (lstrip_head chars s) as Hh.
  destruct (rstrip chars (lstrip chars s)) as [|c r]; [done|].
  rewrite Hr in Hh. exact Hh.
Qed.

Lemma strip_last chars s :
  match rev (strip chars s) with
  | c :: _ => mem c chars = false
  | [] => True
  end.
Proof.
  unfold strip, rstrip. rewrite rev_involutive. apply lstrip_head.
Qed.

Lemma replace_avoids a b s : a <> b -> mem a (replace a b s) = false.
Proof.
  intros Hab. unfold replace, mem. induction s as [|x s IH]; [done|].
  cbn [List.map existsb]. rewrite IH, orb_false_r.
  destruct (N.eqb_spec x a); apply N.eqb_neq; congruence.
Qed.

Lemma startswith_char c s :
  startswith [c] s = match s with x :: _ => N.eqb c x | [] => false end.
Proof. destruct s; cbn; [done|]. apply andb_true_r. Qed.

Lemma mem_singleton c x : mem x [c] = N.eqb x c.
Proof. cbn. apply orb_false_r. Qed.

(** A component that does not start with a separator is appended to the
    directory. *)
Lemma os_path_join_relative a b :
  startswith (lit "/") b = false -> os_path_join a b = with_sep a ++ b.
Proof.
  intros Hb. unfold os_path_join, with_sep. rewrite Hb.
  destruct a as [|x a]; [done|].
  destruct (endswith (lit "/") (x :: a)); [done|].
  now rewrite <- app_assoc.
Qed.


End Stripping.

Lemma filename_of_flat (path : pystr) :
  mem (chr "/") (filename_of path) = false.
Proof. unfold filename_of. apply strip_avoids, replace_avoids. done. Qed.

(** X3. The file-name stem of lines 27-32 never contains a separator and
    neither starts nor ends with an underscore, whatever the path is. *)
Theorem X3_filename_is_flat (path : pystr) :
  mem (chr "/") (filename_of path) = false
  /\ startswith (lit "_") (filename_of path) = false
  /\ endswith (lit "_") (filename_of path) = false.
Proof.
  split; [apply filename_of_flat|].
  unfold filename_of.
  set (p := if endswith (lit "/") path then path ++ lit "index" else path).
  split.
  - pose proof (strip_head (lit "_") (replace (chr "/") (chr "_") p)) as H.
    change (lit "_") with [chr "_"] in *. rewrite startswith_char.
    destruct (strip _ _) as [|c r]; [done|].
    rewrite mem_singleton in H. now rewrite N.eqb_sym.
  - pose proof (strip_last (lit "_") (replace (chr "/") (chr "_") p)) as H.
    unfold endswith. change (rev (lit "_")) with [chr "_"].
    change (lit "_") with [chr "_"] in *. rewrite startswith_char.
    destruct (rev (strip _ _)) as [|c r]; [done|].
    rewrite mem_singleton in H. now rewrite N.eqb_sym.
Qed.

(** X4. The file of line 35 is always directly inside [output_dir]: its
    name is [output_dir], a separator unless [output_dir] is empty or ends
    with one, the stem and ".html". *)
Theorem X4_html_file_inside_output_dir (output_dir path : pystr) :
  html_file_of output_dir (filename_of path)
  = with_sep output_dir ++ filename_of path ++ lit ".html".
Proof.
  unfold html_file_of. apply os_path_join_relative.
  pose proof (filename_of_flat path) as Hflat.
  destruct (filename_of path) as [|c r]; [reflexivity|].
  change (lit "/") with [chr "/"]. rewrite startswith_char. cbn.
  cbn in Hflat. apply orb_false_iff in Hflat as [Hc _]. exact Hc.
Qed.


Lemma lstrip_keeps_tail (chars s t : pystr) c :
  mem c chars = false ->
  exists s', lstrip chars (s ++ c :: t) = s' ++ c :: t.
Proof.
  intros Hc. induction s as [|x s [s' IH]]; cbn [app lstrip].
  - exists []. now rewrite Hc.
  - destruct (mem x chars); [eauto|]. now exists (x :: s).
Qed.

Lemma startswith_app (p t : pystr) : startswith p (p ++ t) = true.
Proof.
  induction p as [|x p IH]; [done|]. cbn. now rewrite N.eqb_refl, IH.
Qed.

(** X6. For a path that ends with a separator the stem ends with
    "index" (lines 28-32): the appended segment survives the replacement
    and the stripping. *)
Theorem X6_trailing_separator_gives_index (path : pystr) :
  endswith (lit "/") path = true ->
  exists stem, filename_of path = stem ++ lit "index".
Proof.
  intros Hend. unfold filename_of. rewrite Hend.
  unfold replace. rewrite map_app. fold (replace (chr "/") (chr "_") path).
  change (List.map _ (lit "index")) with (chr "i" :: lit "ndex").
  destruct (lstrip_keeps_tail (lit "_") (replace (chr "/") (chr "_") path)
              (lit "ndex") (chr "i") eq_refl) as [stem Hl].
  exists stem. unfold strip, rstrip. rewrite Hl.
  change (stem ++ chr "i" :: lit "ndex") with (stem ++ lit "index").
  rewrite rev_app_distr.
  change (rev (lit "index")) with (chr "x" :: lit "edni").
  cbn [app lstrip].
  change (mem (chr "x") (lit "_")) with false. cbn iota.
  change (chr "x" :: lit "edni" ++ rev stem)
    with (rev (lit "index") ++ rev stem).
  now rewrite <- rev_app_distr, rev_involutive.
Qed.

Lemma X6_trailing_separator_gives_index_witness :
  exists stem, filename_of (lit "/blog/") = stem ++ lit "index".
Proof.
  apply (X6_trailing_separator_gives_index (lit "/blog/")). reflexivity.
Defined.

(** ** download_page, path by path *)

(** X7. When the directory can be made, the request is answered with a
    status that [raise_for_status] lets through, and the file can be
    opened and written, [download_page] makes exactly five calls
    ([os.makedirs], the log line, one request with the given headers and a
    timeout of 30, [open], [write]), returns the path of line 35, and
    leaves the text of the response in that file, replacing whatever the
    file held. *)
Theorem X7_download_page_success E wayback_url output_dir hdrs w
    original parsed resp :
  nth_error (split (chr "/") wayback_url) 5 = Some original ->
  Urllib.urlparse (lib E) (Urllib.unquote (lib E) original) = Some parsed ->
  (forall w1, makedirs_ok E w1 output_dir = true) ->
  (forall w1, http_get E w1 wayback_url = GetReturns resp) ->
  fetch_fails (GetReturns resp) = false ->
  (forall w1 f, open_ok E w1 f = true) ->
  (forall w1 f, write_fails E w1 f (text resp) = None) ->
  let html_file := html_file_of output_dir (filename_of (Urllib.path parsed)) in
  let out := download_page E wayback_url output_dir hdrs w in
  out.1 = Ok (Some html_file)
  /\ files out.2 = <[html_file := text resp]> (files w)
  /\ dirs out.2 = dirs w ∪ list_to_set (output_dir :: parents [] output_dir)
  /\ calls out.2
     = calls w ++ [Makedirs output_dir; Log INFO (Downloading wayback_url);
                   Get wayback_url hdrs 30; OpenW html_file;
                   WriteData html_file (text resp)].
Proof.
  intros H5 Hp Hmk Hget Hst Hopen Hwrite html_file out.
  subst out html_file. run.
  rewrite Hmk, H5, Hp, Hget. cbn beta iota.
  cbn in Hst. rewrite Hst. cbn beta iota.
  rewrite Hopen, Hwrite. cbn [fst snd files dirs calls].
  rewrite insert_insert_eq, <- !app_assoc. done.
Qed.

Lemma X7_download_page_success_witness :
  let out :=
    download_page (serving [] 200 (lit "<html>")) (wayback_url post_1)
                  (lit "archived_pages/blog_post-1") headers empty_world in
  out.1 = Ok (Some (lit "archived_pages/blog_post-1/.html"))
  /\ files out.2
     = <[lit "archived_pages/blog_post-1/.html" := lit "<html>"]> ∅.
Proof.
  pose proof (X7_download_page_success (serving [] 200 (lit "<html>"))
                (wayback_url post_1) (lit "archived_pages/blog_post-1")
                headers empty_world (lit "https:")
                {| Urllib.scheme := lit "https"; Urllib.netloc := [];
                   Urllib.path := []; Urllib.params := [];
                   Urllib.query := []; Urllib.fragment := [] |}
                {| status_code := 200; text := lit "<html>" |}
                eq_refl eq_refl (fun _ => eq_refl) (fun _ => eq_refl) eq_refl
                (fun _ _ => eq_refl) (fun _ _ => eq_refl)) as (H1 & H2 & _).
  split; [exact H1|exact H2].
Defined.



(** X9. [download_page] returns [None] exactly when it has logged an
    error: a call that returns a path logs no error, and a call that
    returns [None] logs one error, naming the archive URL, as its last
    action. *)
Theorem X9_none_means_one_error_logged E wayback_url output_dir hdrs w :
  let out := download_page E wayback_url output_dir hdrs w in
  exists evs,
    calls out.2 = calls w ++ evs
    /\ match out.1 with
       | Ok (Some _) => error_logs evs = []
       | Ok None =>
           exists e,
             error_logs evs = [ErrorDownloading wayback_url e]
             /\ last evs = Some (Log ERROR (ErrorDownloading wayback_url e))
       | Raise _ => False
       end.
Proof.
  intros out. subst out. run.
  repeat case_match; simplify_eq; cbn [fst snd calls];
    rewrite <- ?app_assoc; cbn [app];
    eexists; (split; [reflexivity|]); cbn; eauto.
Qed.

(** ** The loop and [main], call by call *)

Lemma requests_app evs1 evs2 :
  requests (evs1 ++ evs2) = requests evs1 ++ requests evs2.
Proof. apply omap_app. Qed.

Lemma download_page_requests E wayback_url output_dir hdrs w r w' :
  download_page E wayback_url output_dir hdrs w = (r, w') ->
  exists evs,
    calls w' = calls w ++ evs
    /\ (requests evs = [] \/ requests evs = [(wayback_url, hdrs, 30%Z)]).
Proof.
  run. intros H.
  repeat case_match; simplify_eq; cbn [calls];
    rewrite <- ?app_assoc; cbn [app];
    eexists; (split; [reflexivity|]); cbn; auto.
Qed.

Lemma download_page_keeps_disk E wayback_url output_dir hdrs w r w' :
  download_page E wayback_url output_dir hdrs w = (r, w') ->
  keeps_disk w w'.
Proof.
  unfold keeps_disk. run. intros H.
  repeat case_match; simplify_eq; cbn [dirs files];
    rewrite ?dom_insert_L; set_solver.
Qed.

(** One iteration, seen from the calls it makes. *)
Lemma process_more E a info w r w' :
  process E a info w = (r, w') ->
  (r = Ok tt \/ r = Raise ValueError)
  /\ keeps_disk w w'
  /\ exists evs,
       calls w' = calls w ++ evs
       /\ (requests evs = [] \/ requests evs = [request_of info])
       /\ (r = Ok tt -> exists evs', evs = evs' ++ [Sleep (delay a)]).
Proof.
  unfold process, request_of.
  destruct (Urllib.urlparse (lib E) (original_url info)) as [parsed|] eqn:Hp.
  2:{ intros H. cbv in H. simplify_eq. split; [auto|]. split; [done|].
      exists []. rewrite app_nil_r. repeat split; auto. done. }
  intros H. unfold of_option in H. unfold mbind, M_bind, mret, M_ret in H.
  destruct (download_page E (wayback_url info)
              (path_dir_of (output a) (Urllib.path parsed)) headers w)
    as [r1 w1] eqn:Hd.
  destruct (download_page_returns E (wayback_url info)
              (path_dir_of (output a) (Urllib.path parsed)) headers w)
    as (html_file & w1' & Hret).
  rewrite Hd in Hret. simplify_eq.
  pose proof (download_page_keeps_disk _ _ _ _ _ _ _ Hd) as Hk.
  destruct (download_page_requests _ _ _ _ _ _ _ Hd) as (evs & Hc & Hr).
  unfold time_sleep, logger, call, raise in H.
  unfold mbind, M_bind, mret, M_ret in H.
  destruct html_file as [[|c f]|]; cbn in H;
    destruct (sleep_ok E (delay a)); simplify_eq; cbn [dirs files calls];
    (split; [auto|]); (split; [exact Hk|]);
    rewrite Hc, <- ?app_assoc; cbn [app];
    eexists; (split; [reflexivity|]);
    rewrite ?requests_app; cbn; rewrite ?app_nil_r;
    (split; [exact Hr|]); intros ?; try done;
    first [ by exists evs
          | by eexists (evs ++ [_]); rewrite <- app_assoc ].
Qed.

Lemma keeps_disk_refl w : keeps_disk w w.
Proof. by split. Qed.

Lemma keeps_disk_trans w1 w2 w3 :
  keeps_disk w1 w2 -> keeps_disk w2 w3 -> keeps_disk w1 w3.
Proof. intros [? ?] [? ?]. split; by etrans. Qed.

Lemma for_each_more E a urls :
  forall w r w',
    for_each E a urls w = (r, w') ->
    (r = Ok tt \/ r = Raise ValueError)
    /\ keeps_disk w w'
    /\ exists evs sent,
         calls w' = calls w ++ evs
         /\ requests evs = List.map request_of sent
         /\ sent `sublist_of` urls
         /\ (urls = [] -> evs = [])
         /\ (r = Ok tt -> urls <> [] ->
             exists evs', evs = evs' ++ [Sleep (delay a)]).
Proof.
  induction urls as [|info rest IH]; intros w r w' H.
  - cbv in H. simplify_eq. split; [auto|]. split; [apply keeps_disk_refl|].
    exists [], []. rewrite app_nil_r. repeat split; auto. done.
  - cbn [for_each] in H. unfold mbind, M_bind in H.
    destruct (process E a info w) as [r1 w1] eqn:Hp.
    apply process_more in Hp
      as (Hr1 & Hk1 & evs1 & Hc1 & Hq1 & Hs1).
    destruct r1 as [[]|e].
    + destruct (IH _ _ _ H)
        as (Hr2 & Hk2 & evs2 & sent & Hc2 & Hq2 & Hsub & Hnil & Hs2).
      split; [exact Hr2|]. split; [by eapply keeps_disk_trans|].
      assert (r = Ok tt -> exists evs', evs1 ++ evs2 = evs' ++ [Sleep (delay a)])
        as Hlast.
      { intros Hr. destruct rest as [|info' rest'].
        - rewrite (Hnil eq_refl), app_nil_r. by apply Hs1.
        - destruct (Hs2 Hr) as [evs' ->]; [done|].
          exists (evs1 ++ evs'). by rewrite <- app_assoc. }
      destruct Hq1 as [Hq1|Hq1].
      * exists (evs1 ++ evs2), sent.
        rewrite Hc2, Hc1, <- app_assoc, requests_app, Hq1, Hq2.
        repeat split; auto; [by apply sublist_cons|done].
      * exists (evs1 ++ evs2), (info :: sent).
        rewrite Hc2, Hc1, <- app_assoc, requests_app, Hq1, Hq2.
        repeat split; auto; [by apply sublist_skip|done].
    + simplify_eq. destruct Hr1 as [?| ->]; [done|].
      split; [auto|]. split; [exact Hk1|].
      destruct Hq1 as [Hq1|Hq1].
      * exists evs1, []. rewrite Hq1.
        repeat split; auto; [apply sublist_nil_l|done|done].
      * exists evs1, [info]. rewrite Hq1.
        repeat split; auto; [apply sublist_skip, sublist_nil_l|done|done].
Qed.

Lemma keeps_disk_after w evs : keeps_disk w (after w evs).
Proof. by split. Qed.

Lemma main_more E a w :
  ((main E a w).1 = Ok tt \/ (main E a w).1 = Raise ValueError)
  /\ keeps_disk w (main E a w).2
  /\ forall data,
       read_json E (after w [ReadJson (input_file a)]) (input_file a)
       = inr data ->
       exists evs sent,
         calls (main E a w).2 = calls w ++ evs
         /\ requests evs = List.map request_of sent
         /\ sent `sublist_of` selected a data
         /\ ((main E a w).1 = Ok tt -> selected a data <> [] ->
             exists evs',
               evs = evs' ++ [Sleep (delay a); Log INFO AllCompleted]).
Proof.
  rewrite main_unfold.
  destruct (read_json E (after w [ReadJson (input_file a)]) (input_file a))
    as [e|data] eqn:Hread.
  { split; [auto|]. split; [apply keeps_disk_after|]. intros data Hd. done. }
  unfold selected.
  destruct (convert (skip_header data)) as [|u us] eqn:Hc.
  { split; [auto|]. split; [apply keeps_disk_after|].
    intros data' Hd. simplify_eq. rewrite Hc, apply_limit_nil.
    exists [ReadJson (input_file a); Log ERROR NoValidUrls], [].
    repeat split; auto. done. }
  destruct (for_each E a (apply_limit (limit a) (u :: us))
              (after w (preamble a (u :: us)))) as [r w1] eqn:Hrun.
  destruct (for_each_more _ _ _ _ _ _ Hrun)
    as (Hr & Hk & evs & sent & Hcalls & Hq & Hsub & _ & Hlast).
  assert (requests (preamble a (u :: us)) = []) as Hpq
    by (unfold preamble; destruct (limit_applies _ _); done).
  assert (keeps_disk w w1) as Hk'
    by (eapply keeps_disk_trans; [apply keeps_disk_after|exact Hk]).
  destruct r as [[]|e]; cbn [fst snd].
  - split; [auto|].
    split; [eapply keeps_disk_trans; [exact Hk'|apply keeps_disk_after]|].
    intros data' Hd. simplify_eq. rewrite Hc.
    exists (preamble a (u :: us) ++ evs ++ [Log INFO AllCompleted]), sent.
    cbn [after calls]. rewrite Hcalls. cbn [after calls].
    rewrite <- !app_assoc, !requests_app, Hpq, Hq.
    cbn -[preamble]. rewrite app_nil_r. repeat split; auto.
    intros _ Hne. destruct (Hlast eq_refl Hne) as [evs' ->].
    exists (preamble a (u :: us) ++ evs'). now rewrite <- !app_assoc.
  - destruct Hr as [?| ->]; [done|]. split; [auto|]. split; [exact Hk'|].
    intros data' Hd. simplify_eq. rewrite Hc.
    exists (preamble a (u :: us) ++ evs), sent.
    rewrite Hcalls. cbn [after calls].
    rewrite <- !app_assoc, !requests_app, Hpq, Hq.
    repeat split; auto. done.
Qed.

Lemma convert_In (url_data : list row) (info : url_info) :
  In info (convert url_data) ->
  exists entry, In entry url_data /\ has_two_fields entry = true
                /\ info = entry_of entry.
Proof.
  induction url_data as [|entry rest IH]; [done|].
  rewrite convert_cons, in_app_iff. unfold convert_step. intros [H|H].
  - fold (has_two_fields entry) in H.
    destruct (has_two_fields entry) eqn:H2; [|done].
    destruct H as [<-|[]]. exists entry. repeat split; auto. now left.
  - destruct (IH H) as (e & He & H2 & ->). exists e. repeat split; auto.
    now right.
Qed.

Lemma firstn_min {A : Type} (n : nat) (l : list A) :
  firstn (Nat.min n (length l)) l = firstn n l.
Proof.
  destruct (Nat.le_gt_cases n (length l)) as [H|H].
  - now rewrite Nat.min_l.
  - rewrite Nat.min_r by lia. now rewrite firstn_all, firstn_all2 by lia.
Qed.

Lemma apply_limit_prefix limit (wayback_urls : list url_info) :
  exists k, k <= length wayback_urls
            /\ apply_limit limit wayback_urls = firstn k wayback_urls.
Proof.
  unfold apply_limit, slice_upto.
  destruct (limit_applies limit wayback_urls).
  - destruct (_ <? _)%Z.
    + eexists (Nat.min _ (length wayback_urls)). split; [lia|].
      now rewrite firstn_min.
    + eexists (Nat.min _ (length wayback_urls)). split; [lia|].
      now rewrite firstn_min.
  - exists (length wayback_urls). split; [done|]. now rewrite firstn_all.
Qed.

Lemma apply_limit_length (n : Z) (wayback_urls : list url_info) :
  (0 < n)%Z -> length (apply_limit (Some n) wayback_urls) <= Z.to_nat n.
Proof.
  intros Hn. unfold apply_limit, limit_applies, slice_upto.
  destruct (Z.eqb_spec n 0); [lia|]. cbn [negb andb from_option id].
  destruct (Z.ltb_spec n (Z.of_nat (length wayback_urls))).
  - destruct (Z.ltb_spec n 0); [lia|]. rewrite length_firstn. lia.
  - lia.
Qed.

Lemma skip_header_In (data : list row) (entry : row) :
  In entry (skip_header data) -> In entry data.
Proof.
  destruct data as [|first rest]; [done|]. cbn.
  destruct (bool_decide (first = header)); [now right|done].
Qed.

(** X10. Every request of a run is the GET, with the fixed headers and a
    timeout of 30, of the archive URL built from one row of the input
    file; the requests follow the order of the entries, at most one per
    entry, and every URL requested starts with
    "https://web.archive.org/web/". *)
Theorem X10_requests_go_to_the_archive E a w data :
  read_json E (after w [ReadJson (input_file a)]) (input_file a) = inr data ->
  exists evs sent,
    calls (main E a w).2 = calls w ++ evs
    /\ requests evs = List.map request_of sent
    /\ sent `sublist_of` selected a data
    /\ Forall (fun info =>
                 (exists entry, In entry data /\ info = entry_of entry)
                 /\ startswith (lit "https://web.archive.org/web/")
                               (wayback_url info) = true) sent.
Proof.
  intros Hread.
  destruct (main_more E a w) as (_ & _ & Hm).
  destruct (Hm data Hread) as (evs & sent & Hc & Hq & Hsub & _).
  exists evs, sent. repeat split; auto.
  apply Forall_forall. intros info Hin.
  apply (sublist_subseteq _ _ Hsub) in Hin. unfold selected in Hin.
  destruct (apply_limit_prefix (limit a) (convert (skip_header data)))
    as (k & _ & Hk).
  rewrite Hk in Hin. apply subseteq_take, list_elem_of_In in Hin.
  destruct (convert_In _ _ Hin) as (entry & He & _ & ->).
  split; [exists entry; split; [by apply skip_header_In|done]|].
  apply startswith_app.
Qed.

Lemma X10_requests_go_to_the_archive_witness :
  exists evs sent,
    calls (main (serving sample_rows 200 (lit "<html>")) (default_args None)
                empty_world).2 = calls empty_world ++ evs
    /\ requests evs = List.map request_of sent
    /\ sent `sublist_of` selected (default_args None) sample_rows
    /\ Forall (fun info =>
                 (exists entry, In entry sample_rows /\ info = entry_of entry)
                 /\ startswith (lit "https://web.archive.org/web/")
                               (wayback_url info) = true) sent.
Proof.
  apply (X10_requests_go_to_the_archive
           (serving sample_rows 200 (lit "<html>")) (default_args None)
           empty_world sample_rows).
  reflexivity.
Defined.

(** X11. With [--limit N] and N positive, a run calls [download_page] at
    most N times and sends at most N requests, whether or not N is below
    the number of entries. *)
Theorem X11_positive_limit_bounds_requests E a w data (n : Z) :
  limit a = Some n ->
  (0 < n)%Z ->
  read_json E (after w [ReadJson (input_file a)]) (input_file a) = inr data ->
  exists evs,
    calls (main E a w).2 = calls w ++ evs
    /\ length (attempts evs) <= Z.to_nat n
    /\ length (gets evs) <= Z.to_nat n.
Proof.
  intros Hl Hn Hread.
  destruct (main_run E a w data Hread) as (evs & k & Hc & Hk & Hm & Hg & _).
  assert (length (selected a data) <= Z.to_nat n) as Hsel
    by (unfold selected; rewrite Hl; now apply apply_limit_length).
  exists evs. split; [done|]. split; [|lia].
  rewrite <- attempts_marks, Hm, attempts_iterations, length_map, length_firstn.
  lia.
Qed.

Lemma X11_positive_limit_bounds_requests_witness :
  exists evs,
    calls (main (serving sample_rows 200 (lit "<html>"))
                (default_args (Some 5%Z)) empty_world).2
    = calls empty_world ++ evs
    /\ length (attempts evs) <= Z.to_nat 5
    /\ length (gets evs) <= Z.to_nat 5.
Proof.
  apply (X11_positive_limit_bounds_requests
           (serving sample_rows 200 (lit "<html>"))
           (default_args (Some 5%Z)) empty_world sample_rows 5%Z);
    [reflexivity | vm_compute; reflexivity | reflexivity].
Defined.

(** X12. A negative [--limit] is not rejected: [--limit -m] drops the
    last m entries (the slice of line 107 counts from the end), and leaves
    no entry when m is at least the number of entries. *)
Theorem X12_negative_limit_drops_last (a : args) (data : list row) (n : Z) :
  limit a = Some n ->
  (n < 0)%Z ->
  selected a data
  = firstn (length (convert (skip_header data)) - Z.to_nat (- n))
           (convert (skip_header data)).
Proof.
  intros Hl Hn. unfold selected, apply_limit, limit_applies, slice_upto.
  rewrite Hl. destruct (Z.eqb_spec n 0); [lia|].
  destruct (Z.ltb_spec n (Z.of_nat (length (convert (skip_header data)))));
    [|lia].
  cbn [negb andb from_option id]. destruct (Z.ltb_spec n 0); [|lia].
  f_equal. lia.
Qed.

Lemma X12_negative_limit_drops_last_witness :
  selected (default_args (Some (-1)%Z)) sample_rows
  = firstn (length (convert (skip_header sample_rows)) - Z.to_nat (- (-1)))
           (convert (skip_header sample_rows)).
Proof.
  apply (X12_negative_limit_drops_last (default_args (Some (-1)%Z))
           sample_rows (-1)%Z); [reflexivity | vm_compute; reflexivity].
Defined.

(** X13. Whatever [--limit] is, the entries handed to the loop are an
    initial segment of the valid entries, in the same order; they are all
    of them when [--limit] is absent or at least their number. *)
Theorem X13_limit_keeps_an_initial_segment (a : args) (data : list row) :
  (exists k,
      k <= length (convert (skip_header data))
      /\ selected a data = firstn k (convert (skip_header data)))
  /\ (limit a = None -> selected a data = convert (skip_header data))
  /\ (forall n,
        limit a = Some n ->
        (Z.of_nat (length (convert (skip_header data))) <= n)%Z ->
        selected a data = convert (skip_header data)).
Proof.
  unfold selected. split; [apply apply_limit_prefix|]. split.
  - now intros ->.
  - intros n -> Hn. unfold apply_limit, limit_applies.
    destruct (Z.ltb_spec n (Z.of_nat (length (convert (skip_header data)))));
      [lia|].
    now rewrite andb_false_r.
Qed.

Lemma X13_limit_keeps_an_initial_segment_witness :
  selected (default_args (Some 2%Z)) sample_rows
  = convert (skip_header sample_rows).
Proof.
  apply (proj2 (proj2 (X13_limit_keeps_an_initial_segment
                         (default_args (Some 2%Z)) sample_rows)) 2%Z);
    [reflexivity | apply Z.leb_le; reflexivity].
Defined.

(** X14. When the input file cannot be opened or is not JSON, [main]
    logs the error and returns normally: nothing is created, requested or
    slept. *)
Theorem X14_unreadable_input E a w e :
  read_json E (after w [ReadJson (input_file a)]) (input_file a) = inl e ->
  main E a w
  = (Ok tt,
     after w [ReadJson (input_file a); Log ERROR (ErrorReadingInput e)]).
Proof. intros Hread. rewrite main_unfold, Hread. done. Qed.

Lemma X14_unreadable_input_witness :
  main {| lib := plain_lib; read_json := fun _ _ => inl JSONDecodeError;
          makedirs_ok := fun _ _ => true;
          http_get := fun _ _ => GetRaises ConnectionError;
          open_ok := fun _ _ => true; write_fails := fun _ _ _ => None;
          sleep_ok := fun _ => true |}
       (default_args None) empty_world
  = (Ok tt,
     after empty_world
       [ReadJson (lit "urls.json");
        Log ERROR (ErrorReadingInput JSONDecodeError)]).
Proof.
  apply X14_unreadable_input. reflexivity.
Defined.



(** X16. The loop of lines 88-97 is a filter followed by a map: the
    entries are, in order, the dictionaries of the rows that have at least
    two fields, so there are as many entries as such rows and never more
    entries than rows. *)
Theorem X16_convert_is_filter_map (url_data : list row) :
  convert url_data = List.map entry_of (List.filter has_two_fields url_data)
  /\ length (convert url_data)
     = length (List.filter has_two_fields url_data)
  /\ length (convert url_data) <= length url_data.
Proof.
  assert (convert url_data
          = List.map entry_of (List.filter has_two_fields url_data)) as H.
  { induction url_data as [|entry rest IH]; [done|].
    rewrite convert_cons, IH. cbn [List.filter]. unfold convert_step.
    fold (has_two_fields entry). now destruct (has_two_fields entry). }
  split; [exact H|]. rewrite H, length_map. split; [done|]. clear H.
  induction url_data as [|entry rest IH]; [done|].
  cbn [List.filter]. destruct (has_two_fields entry); cbn [length]; lia.
Qed.

(** X17. Running the loop over two lists one after the other is running
    it over their concatenation: the second part is started in the state
    the first part leaves, and not at all when the first part raised. *)
Theorem X17_for_each_app E a (urls1 urls2 : list url_info) w :
  for_each E a (urls1 ++ urls2) w
  = match for_each E a urls1 w with
    | (Ok _, w1) => for_each E a urls2 w1
    | (Raise e, w1) => (Raise e, w1)
    end.
Proof.
  revert w. induction urls1 as [|info rest IH]; intros w; [done|].
  cbn [app for_each]. unfold mbind, M_bind.
  destruct (process E a info w) as [[[]|e] w1]; [apply IH|done].
Qed.

(** X18. The pause is made after the last entry as well: in a run that
    processes at least one entry and ends normally, the last two calls are
    the [time.sleep] of the configured delay and the log line
    "All downloads completed". *)
Theorem X18_pause_after_last_entry E a w data :
  read_json E (after w [ReadJson (input_file a)]) (input_file a) = inr data ->
  selected a data <> [] ->
  (main E a w).1 = Ok tt ->
  exists evs,
    calls (main E a w).2
    = calls w ++ evs ++ [Sleep (delay a); Log INFO AllCompleted].
Proof.
  intros Hread Hne Hok.
  destruct (main_more E a w) as (_ & _ & Hm).
  destruct (Hm data Hread) as (evs & sent & Hc & _ & _ & Hlast).
  destruct (Hlast Hok Hne) as [evs' ->]. eauto.
Qed.

Lemma X18_pause_after_last_entry_witness :
  exists evs,
    calls (main (offline sample_rows) (default_args None) empty_world).2
    = calls empty_world ++ evs ++ [Sleep one_second; Log INFO AllCompleted].
Proof.
  apply (X18_pause_after_last_entry (offline sample_rows) (default_args None)
           empty_world sample_rows);
    [reflexivity
    | intros H; apply (f_equal (@length _)) in H; vm_compute in H; lia
    | reflexivity].
Defined.

(** X19. A run never removes anything: every directory and every file
    that existed before [main] still exists after it, whatever fails. *)
Theorem X19_nothing_is_deleted E a w :
  dirs w ⊆ dirs (main E a w).2
  /\ dom (files w) ⊆ dom (files (main E a w).2).
Proof.
  destruct (main_more E a w) as (_ & [Hdirs Hfiles] & _).
  split; [exact Hdirs|exact Hfiles].
Qed.


